(** * Hierarchical stop/continue model: termination agent and controller

    A shallow embedding of [mcl_toolbox/models/hierarchical_models.py]:
    the [HierarchicalAgent] class (running statistics, the decision rule
    evaluator [compute_stop_prob], the single decision step [get_action]) and
    [HierarchicalLearner.simulate] (the two-mode trial loop).

    Python floats are idealised as real numbers.  Mutable objects are threaded
    explicitly: one [World] value holds the learner's two agents, the
    environment they share and the process-wide random source.  Exceptions are
    the [Raise] outcome of a small state-and-error monad. *)

From stdpp Require Import gmap strings list pretty.
From Stdlib Require Import Reals Lra.

Local Open Scope R_scope.

(** ** Outcomes of Python code *)

Inductive py_error : Type :=
| KeyError (key : string)
| AttributeError (attr : string)
| UnboundLocalError (var : string)
| ZeroDivisionError
| ValueError (msg : string)
| IndexError.

(** [OutOfFuel] is not a Python outcome: it marks a [while True] loop that
    the model stopped unrolling. *)
Inductive result (A : Type) : Type :=
| Ok (a : A)
| Raise (e : py_error)
| OutOfFuel.

Arguments Ok {A} a.
Arguments Raise {A} e.
Arguments OutOfFuel {A}.

(** ** Numeric helpers *)

#[global] Instance R_eq_dec : EqDecision R := Req_dec_T.

(** [np.sum] over a Python list of floats. *)
Definition np_sum (l : list R) : R := fold_right Rplus 0 l.

(** Modelled from the spec: [rows_mean] lives in
    [mcl_toolbox.utils.learning_utils], which is not part of the sources; the
    spec says [avg_payoff] "is the arithmetic mean of [payoffs]". *)
Definition rows_mean (l : list R) : R := np_sum l / INR (length l).

(** Modelled from the spec: [temp_sigmoid] also lives in
    [mcl_toolbox.utils.learning_utils]; the spec gives the Sigmoid Scorer as
    [probability = 1 / (1 + exp(-score / tau))]. *)
Definition temp_sigmoid (score tau : R) : R := 1 / (1 + exp (- score / tau)).

(** Python's [max] of a non-empty list; [None] stands for the [ValueError] on
    an empty one. *)
Fixpoint py_max (l : list R) : option R :=
  match l with
  | [] => None
  | x :: l' =>
      match py_max l' with
      | None => Some x
      | Some m => Some (if Rgt_dec x m then x else m)
      end
  end.

(** ** The termination agent's state ([HierarchicalAgent]) *)

Record HierarchicalAgent : Type := mkAgent {
  tau : R;
  payoffs : list R;
  params : gmap string R;
  decision_rule : string;
  features : list string;
  max_payoff : R;
  avg_payoff : R;
  history : list R;
  action_log_probs : list R
}.

(** [attributes] as far as [HierarchicalAgent.__init__] reads it. *)
Record Attributes : Type := mkAttributes {
  attr_decision_rule : string;
  attr_features : list string
}.

(** [HierarchicalAgent.__init__]: [params["tau"]] raises [KeyError] when the
    key is missing. *)
Definition HierarchicalAgent_init (ps : gmap string R) (attributes : Attributes)
  : result HierarchicalAgent :=
  match ps !! "tau"%string with
  | None => Raise (KeyError "tau")
  | Some t =>
      Ok {| tau := exp t;
            payoffs := [];
            params := ps;
            decision_rule := attr_decision_rule attributes;
            features := attr_features attributes;
            max_payoff := 0;
            avg_payoff := 0;
            history := [];
            action_log_probs := [] |}
  end.

(** [HierarchicalAgent.update_payoffs] *)
Definition update_payoffs (total_reward : R) (self : HierarchicalAgent)
  : HierarchicalAgent :=
  let payoffs' := payoffs self ++ [total_reward] in
  {| tau := tau self;
     payoffs := payoffs';
     params := params self;
     decision_rule := decision_rule self;
     features := features self;
     max_payoff := if Rgt_dec total_reward (max_payoff self)
                   then total_reward else max_payoff self;
     avg_payoff := rows_mean payoffs';
     history := history self;
     action_log_probs := action_log_probs self |}.

(** [HierarchicalAgent.update_history] *)
Definition update_history (max_expected_return : R) (self : HierarchicalAgent)
  : HierarchicalAgent :=
  {| tau := tau self;
     payoffs := payoffs self;
     params := params self;
     decision_rule := decision_rule self;
     features := features self;
     max_payoff := max_payoff self;
     avg_payoff := avg_payoff self;
     history := history self ++ [max_expected_return];
     action_log_probs := action_log_probs self |}.

(** [HierarchicalAgent.init_model_params]: four assignments; [tau], [params]
    and [action_log_probs] are not touched. *)
Definition init_model_params (self : HierarchicalAgent) : HierarchicalAgent :=
  {| tau := tau self;
     payoffs := [];
     params := params self;
     decision_rule := decision_rule self;
     features := features self;
     max_payoff := 0;
     avg_payoff := 0;
     history := [];
     action_log_probs := action_log_probs self |}.

(** Field updates made from outside the class. *)
Definition set_params (ps : gmap string R) (self : HierarchicalAgent)
  : HierarchicalAgent :=
  {| tau := tau self;
     payoffs := payoffs self;
     params := ps;
     decision_rule := decision_rule self;
     features := features self;
     max_payoff := max_payoff self;
     avg_payoff := avg_payoff self;
     history := history self;
     action_log_probs := action_log_probs self |}.

Definition append_action_log_prob (lp : R) (self : HierarchicalAgent)
  : HierarchicalAgent :=
  {| tau := tau self;
     payoffs := payoffs self;
     params := params self;
     decision_rule := decision_rule self;
     features := features self;
     max_payoff := max_payoff self;
     avg_payoff := avg_payoff self;
     history := history self;
     action_log_probs := action_log_probs self ++ [lp] |}.

(** A run of [update_payoffs] calls, oldest first. *)
Definition record_payoffs (rs : list R) (self : HierarchicalAgent)
  : HierarchicalAgent :=
  fold_left (fun a r => update_payoffs r a) rs self.

(** ** External collaborators

    The planning environment, the execution (actor) agent, NumPy's random
    source and the two NumPy/SciPy numeric routines are outside the modelled
    file; they are interfaces here, and the general statements below hold
    for all of their implementations. *)

Definition Path : Type := list Z.

Class Environment (E : Type) : Type := {
  env_reset : E -> E;
  get_next_trial : E -> E;
  get_available_actions : E -> list Z;
  num_trials : E -> nat;
  num_actions : E -> Z;
  present_trial_num : E -> Z;
  get_max_dist_value : E -> R;
  get_min_dist_value : E -> R;
  calculate_max_expected_return : E -> R;
  compute_termination_feature_values : E -> list string -> list R;
  (** [env.step(action)] gives [(state, reward, done, taken_path)]; the
      state is the updated environment. *)
  env_step : E -> Z -> E * (R * bool * Path)
}.

Class RandomSource (G : Type) : Type := {
  (** [np.random.choice([0, 1], p=[p, 1 - p])] on valid probabilities:
      [false] is element [0], [true] is element [1]. *)
  random_choice : G -> R -> G * bool;
  (** [np.random.normal(loc, scale)] for [scale >= 0]. *)
  random_normal : G -> R -> R -> G * R
}.

Class NumericLib : Type := {
  (** [scipy.stats.gamma.pdf(x, a=alpha, scale=beta)] *)
  gamma_pdf : R -> R -> R -> R;
  (** [np.quantile(xs, q)] on a non-empty [xs] *)
  np_quantile : list R -> R -> R
}.

Class ExecutionAgent (A E G : Type) : Type := {
  actor_init_model_params : A -> A;
  get_current_weights : A -> list R;
  (** [self.actor_agent.num_actions = n] *)
  set_num_actions : nat -> A -> A;
  (** [update_rewards], [update_features] and [term_rewards] set to [[]] *)
  clear_trial_buffers : A -> A;
  (** [act_and_learn(env, end_episode)] gives
      [(action, reward, done, taken_path)] *)
  act_and_learn : bool -> A -> E -> G -> (A * E * G) * (Z * R * bool * Path);
  store_action_likelihood : Z -> A -> E -> A * E;
  take_action_and_learn :
    Z -> R -> option Z -> Path -> A -> E -> G -> A * E * G;
  actor_action_log_probs : A -> list R
}.

(** The participant record as far as [simulate] reads [all_trials_data]. *)
Record Participant : Type := mkParticipant {
  data_actions : list (list Z);
  data_rewards : list (list R);
  data_taken_paths : list Path
}.

(** The returned [dict(trials_data)].  A key that was never appended to is
    the empty list here; [trials_loss = None] is Python's [None]. *)
Record TrialRecord : Type := mkTrialRecord {
  trials_w : list (list R);
  trials_a : list (list Z);
  trials_r : list R;
  trials_loss : option R
}.

(** Keyword arguments of [compute_stop_prob] with their defaults. *)
Record StopArgs : Type := mkStopArgs {
  max_expected_return : R;
  arg_max_payoff : R;
  arg_avg_payoff : R;
  vpi : R;
  voi : R;
  max_improvement : R;
  expected_improvement : R;
  path_history : list R
}.

Definition default_args : StopArgs :=
  {| max_expected_return := 0;
     arg_max_payoff := 0;
     arg_avg_payoff := 0;
     vpi := 0;
     voi := 0;
     max_improvement := 0;
     expected_improvement := 0;
     path_history := [0] |}.

(** The inner loop of the [noisy_memory_best_payoff] branch:
    [for i, higher_reward in enumerate(path_history)], started at index [i]
    with the two running products [(p_forget_higher, p_forget_reward)]. *)
Fixpoint forget_products `{NumericLib} (alpha beta : R) (trial_num : Z)
    (reward : R) (i : Z) (hist : list R) (acc : R * R) : R * R :=
  match hist with
  | [] => acc
  | higher_reward :: rest =>
      let delta := IZR (trial_num - i) in
      let acc1 :=
        if Rgt_dec higher_reward reward
        then (fst acc * gamma_pdf delta alpha beta, snd acc)
        else acc in
      let acc2 :=
        if decide (higher_reward = reward)
        then (fst acc1, snd acc1 * gamma_pdf delta alpha beta)
        else acc1 in
      forget_products alpha beta trial_num reward (i + 1) rest acc2
  end.

(** ** The objects [simulate] works on, and the monad that threads them *)

Section State.

Context {A E G : Type}.

(** The learner's fields, the environment argument and the random
    source. *)
Record World : Type := mkWorld {
  no_term : bool;
  decision_agent : HierarchicalAgent;
  actor_agent : A;
  env : E;
  rng : G
}.

Definition with_decision_agent (f : HierarchicalAgent -> HierarchicalAgent)
    (w : World) : World :=
  {| no_term := no_term w;
     decision_agent := f (decision_agent w);
     actor_agent := actor_agent w;
     env := env w;
     rng := rng w |}.

Definition with_actor_agent (f : A -> A) (w : World) : World :=
  {| no_term := no_term w;
     decision_agent := decision_agent w;
     actor_agent := f (actor_agent w);
     env := env w;
     rng := rng w |}.

Definition with_env (f : E -> E) (w : World) : World :=
  {| no_term := no_term w;
     decision_agent := decision_agent w;
     actor_agent := actor_agent w;
     env := f (env w);
     rng := rng w |}.

Definition with_rng (g : G) (w : World) : World :=
  {| no_term := no_term w;
     decision_agent := decision_agent w;
     actor_agent := actor_agent w;
     env := env w;
     rng := g |}.

(** Everything but the decision agent replaced at once: what a call into
    the execution agent may change. *)
Definition with_collaborators (a : A) (e : E) (g : G) (w : World) : World :=
  {| no_term := no_term w;
     decision_agent := decision_agent w;
     actor_agent := a;
     env := e;
     rng := g |}.

Definition M (X : Type) : Type := World -> result (X * World).

Definition ret {X} (x : X) : M X := fun w => Ok (x, w).

Definition bind {X Y} (m : M X) (k : X -> M Y) : M Y :=
  fun w =>
    match m w with
    | Ok (x, w') => k x w'
    | Raise e => Raise e
    | OutOfFuel => OutOfFuel
    end.

Definition raise {X} (e : py_error) : M X := fun _ => Raise e.

Definition gets {X} (f : World -> X) : M X := fun w => Ok (f w, w).

Definition modify (f : World -> World) : M unit := fun w => Ok (tt, f w).

Fixpoint foldM {X S} (f : X -> S -> M S) (xs : list X) (s : S) : M S :=
  match xs with
  | [] => ret s
  | x :: xs' => bind (f x s) (foldM f xs')
  end.

(** [frames rel m]: whenever [m] returns, the world it returns in is
    related by [rel] to the world it started in. *)
Definition frames {X} (rel : World -> World -> Prop) (m : M X) : Prop :=
  forall w x w', m w = Ok (x, w') -> rel w w'.

(** [returns P m]: whenever [m] returns, the value it returns satisfies
    [P]. *)
Definition returns {X} (P : X -> Prop) (m : M X) : Prop :=
  forall w x w', m w = Ok (x, w') -> P x.

(** The decision agent's payoff statistics are the same in both worlds. *)
Definition same_statistics (w w' : World) : Prop :=
  payoffs (decision_agent w') = payoffs (decision_agent w) /\
  max_payoff (decision_agent w') = max_payoff (decision_agent w) /\
  avg_payoff (decision_agent w') = avg_payoff (decision_agent w).

(** Only the random source may differ. *)
Definition same_but_rng (w w' : World) : Prop :=
  no_term w' = no_term w /\
  decision_agent w' = decision_agent w /\
  actor_agent w' = actor_agent w /\
  env w' = env w.

(** What a stop/continue decision may change: the stored parameters and
    history of the decision agent and the random source, nothing else. *)
Definition decision_frame (w w' : World) : Prop :=
  no_term w' = no_term w /\
  actor_agent w' = actor_agent w /\
  env w' = env w /\
  tau (decision_agent w') = tau (decision_agent w) /\
  payoffs (decision_agent w') = payoffs (decision_agent w) /\
  decision_rule (decision_agent w') = decision_rule (decision_agent w) /\
  features (decision_agent w') = features (decision_agent w) /\
  max_payoff (decision_agent w') = max_payoff (decision_agent w) /\
  avg_payoff (decision_agent w') = avg_payoff (decision_agent w) /\
  action_log_probs (decision_agent w')
  = action_log_probs (decision_agent w).

(** What evaluating a rule or drawing a choice may change: the stored
    parameters and the random source. *)
Definition evaluator_frame (w w' : World) : Prop :=
  decision_frame w w' /\
  history (decision_agent w') = history (decision_agent w).

(** The decision agent's logged log-probabilities are the same. *)
Definition same_log_probs (w w' : World) : Prop :=
  action_log_probs (decision_agent w')
  = action_log_probs (decision_agent w).

End State.

Arguments World : clear implicits.
Arguments M : clear implicits.

Notation "x <- m ;; k" := (bind m (fun x => k))
  (at level 100, m at next level, right associativity).
Notation "m ;;; k" := (bind m (fun _ => k))
  (at level 100, right associativity).

(** Truthiness of a Python list. *)
Definition truthy {X} (l : list X) : bool :=
  match l with
  | [] => false
  | _ :: _ => true
  end.

(** ** The termination agent's operations and the controller *)

Section Model.

Context {A E G : Type}.
Context `{Environment E, RandomSource G, NumericLib, ExecutionAgent A E G}.

(** [hierarchical_params.precision_epsilon] of [mcl_toolbox.global_vars],
    a constant defined outside the sources. *)
Variable precision_epsilon : R.

(** [decision_params[key]] *)
Definition get_param (key : string) : M A E G R :=
  fun w =>
    match params (decision_agent w) !! key with
    | Some v => Ok (v, w)
    | None => Raise (KeyError key)
    end.

(** [decision_params[key] = v]: [decision_params] is [self.params] itself,
    so the write lands in the agent. *)
Definition set_param (key : string) (v : R) : M A E G unit :=
  modify (with_decision_agent
            (fun a => set_params (<[key := v]> (params a)) a)).

(** [np.random.choice([0, 1], p=[p_stop, 1 - p_stop])]: NumPy rejects a
    negative entry with [ValueError]. *)
Definition np_random_choice (p_stop : R) : M A E G Z :=
  fun w =>
    if Rle_dec 0 p_stop then
      if Rle_dec 0 (1 - p_stop) then
        let '(g, b) := random_choice (rng w) p_stop in
        Ok (Z.b2z b, with_rng g w)
      else Raise (ValueError "probabilities are not non-negative")
    else Raise (ValueError "probabilities are not non-negative").

(** [np.random.normal(loc, scale)]: NumPy rejects [scale < 0]. *)
Definition np_random_normal (loc scale : R) : M A E G R :=
  fun w =>
    if Rlt_dec scale 0 then Raise (ValueError "scale < 0")
    else
      let '(g, x) := random_normal (rng w) loc scale in
      Ok (x, with_rng g w).

(** [np.quantile(path_history, q)]: NumPy has no quantile of an empty
    sequence (an [IndexError], or [nan] in older releases). *)
Definition quantile (xs : list R) (q : R) : M A E G R :=
  match xs with
  | [] => raise IndexError
  | _ :: _ => ret (np_quantile xs q)
  end.

(** One round of [for reward in set(path_history)] in the
    [noisy_memory_best_payoff] branch; [p_stop] is the running sum. *)
Definition noisy_memory_term (args : StopArgs) (tau alpha beta : R)
    (trial_num : Z) (reward : R) (p_stop : R) : M A E G R :=
  let '(p_forget_higher, p_forget_reward) :=
    forget_products alpha beta trial_num reward 0 (path_history args) (1, 1) in
  let p_remember_reward := 1 - p_forget_reward in
  theta <- get_param "theta" ;;
  let p_stop_conditional :=
    temp_sigmoid (max_expected_return args - exp theta * reward) tau in
  ret (p_stop + p_remember_reward * p_forget_higher * p_stop_conditional).

(** The [elif] chain of [compute_stop_prob], entered when more than one
    action (or none) is available. *)
Definition evaluate_rule (args : StopArgs) (decision_rule : string) (tau : R)
  : M A E G R :=
  if String.eqb decision_rule "threshold" then
    max_return <- gets (fun w => get_max_dist_value (env w)) ;;
    min_return <- gets (fun w => get_min_dist_value (env w)) ;;
    let max_min_diff := max_return - min_return in
    (* a zero spread: Python floats raise; NumPy scalars would give [inf]
       or [nan], no real number either way *)
    if decide (max_min_diff = 0) then raise ZeroDivisionError
    else
      let normalized_return :=
        (max_expected_return args - min_return) / max_min_diff in
      theta <- get_param "theta" ;;
      ret (temp_sigmoid (normalized_return - theta) tau)
  else if String.eqb decision_rule "best_payoff" then
    theta <- get_param "theta" ;;
    ret (temp_sigmoid
           (max_expected_return args - exp theta * arg_max_payoff args) tau)
  else if String.eqb decision_rule "average_payoff" then
    theta <- get_param "theta" ;;
    ret (temp_sigmoid
           (max_expected_return args - exp theta * arg_avg_payoff args) tau)
  else if String.eqb decision_rule "adaptive_satisficing" then
    num_clicks <- gets (fun w =>
      (num_actions (env w)
       - Z.of_nat (length (get_available_actions (env w))))%Z) ;;
    a <- get_param "a" ;;
    b <- get_param "b" ;;
    ret (temp_sigmoid
           (max_expected_return args - exp a + exp b * IZR num_clicks) tau)
  else if String.eqb decision_rule "feature" then
    (* [compute_termination_feature_values] is called, then the list
       comprehension reads [self.termination_features], an attribute the
       class never sets. *)
    _ <- gets (fun w => compute_termination_feature_values
                          (env w) (features (decision_agent w))) ;;
    raise (AttributeError "termination_features")
  else if String.eqb decision_rule "best_path_difference" then
    theta <- get_param "theta" ;;
    ret (temp_sigmoid
           (arg_max_payoff args - max_expected_return args - theta) tau)
  else if String.eqb decision_rule "VPI" then
    theta <- get_param "theta" ;;
    ret (temp_sigmoid (vpi args - max_expected_return args - theta) tau)
  else if String.eqb decision_rule "VOI1" then
    theta <- get_param "theta" ;;
    ret (temp_sigmoid (voi args - max_expected_return args - theta) tau)
  else if String.eqb decision_rule "maximum_improvement" then
    theta <- get_param "theta" ;;
    ret (temp_sigmoid (max_improvement args - theta) tau)
  else if String.eqb decision_rule "expected_improvement" then
    theta <- get_param "theta" ;;
    ret (temp_sigmoid (expected_improvement args - theta) tau)
  else if String.eqb decision_rule "quantile" then
    theta <- get_param "theta" ;;
    (if Rgt_dec theta 1 then set_param "theta" 1 else ret tt) ;;;
    theta <- get_param "theta" ;;
    (if Rlt_dec theta 0 then set_param "theta" 0 else ret tt) ;;;
    theta <- get_param "theta" ;;
    q <- quantile (path_history args) theta ;;
    ret (temp_sigmoid q tau)
  else if String.eqb decision_rule "noisy_memory_best_payoff" then
    alpha <- get_param "alpha" ;;
    beta <- get_param "beta" ;;
    trial_num <- gets (fun w => present_trial_num (env w)) ;;
    (* Python iterates the set in an order of its own; the sum of reals
       does not depend on it. *)
    foldM (noisy_memory_term args tau alpha beta trial_num)
          (remove_dups (path_history args)) 0
  else if String.eqb decision_rule "confidence_bound" then
    trial_num <- gets (fun w => present_trial_num (env w)) ;;
    threshold_mean <-
      (if (trial_num =? 0)%Z then get_param "threshold_mean"
       else gets (fun w => avg_payoff (decision_agent w))) ;;
    threshold_var <- get_param "threshold_var" ;;
    sample <- np_random_normal threshold_mean
                (threshold_var / sqrt (IZR (trial_num + 1))) ;;
    ret (temp_sigmoid (max_expected_return args - sample) tau)
  else
    (* no branch assigned [p_stop] *)
    raise (UnboundLocalError "p_stop").

(** [HierarchicalAgent.compute_stop_prob] *)
Definition compute_stop_prob (args : StopArgs) : M A E G R :=
  decision_rule <- gets (fun w => decision_rule (decision_agent w)) ;;
  tau <- gets (fun w => tau (decision_agent w)) ;;
  available <- gets (fun w => get_available_actions (env w)) ;;
  if (length available =? 1)%nat then ret 1
  else evaluate_rule args decision_rule tau.

(** The keyword arguments [get_action] passes: [max_expected_return] and
    [path_history]; every other one keeps its default. *)
Definition get_action_args (max_expected_return : R) (history : list R)
  : StopArgs :=
  {| max_expected_return := max_expected_return;
     arg_max_payoff := arg_max_payoff default_args;
     arg_avg_payoff := arg_avg_payoff default_args;
     vpi := vpi default_args;
     voi := voi default_args;
     max_improvement := max_improvement default_args;
     expected_improvement := expected_improvement default_args;
     path_history := history |}.

(** [HierarchicalAgent.get_action] *)
Definition get_action : M A E G (Z * R) :=
  max_expected_return <-
    gets (fun w => calculate_max_expected_return (env w)) ;;
  modify (with_decision_agent (update_history max_expected_return)) ;;;
  history <- gets (fun w => history (decision_agent w)) ;;
  p_stop <- compute_stop_prob (get_action_args max_expected_return history) ;;
  termination_choice <- np_random_choice p_stop ;;
  ret (termination_choice, p_stop).

(** [self.decision_agent.action_log_probs.append(np.log(action_prob))] with
    the probability of the observed choice floored as in the source. *)
Definition observed_choice_prob (action : Z) (p_stop : R) : R :=
  if decide (action <> 0%Z) then
    if decide (1 - p_stop = 0) then precision_epsilon else 1 - p_stop
  else
    if decide (p_stop = 0) then precision_epsilon else p_stop.

(** A call into the execution agent, which may change itself, the
    environment it is handed and the random source. *)
Definition call_act_and_learn (end_episode : bool)
  : M A E G (Z * R * bool * Path) :=
  fun w =>
    let '(a, e, g, out) :=
      act_and_learn end_episode (actor_agent w) (env w) (rng w) in
    Ok (out, with_collaborators a e g w).

Definition call_store_action_likelihood (action : Z) : M A E G unit :=
  fun w =>
    let '(a, e) := store_action_likelihood action (actor_agent w) (env w) in
    Ok (tt, with_collaborators a e (rng w) w).

Definition call_take_action_and_learn (action : Z) (reward : R)
    (next_action : option Z) (trial_path : Path) : M A E G unit :=
  fun w =>
    let '(a, e, g) :=
      take_action_and_learn action reward next_action trial_path
        (actor_agent w) (env w) (rng w) in
    Ok (tt, with_collaborators a e g w).

(** [env.step(0)] *)
Definition call_env_step (action : Z) : M A E G (R * bool * Path) :=
  fun w =>
    let '(e, out) := env_step (env w) action in
    Ok (out, with_env (fun _ => e) w).

(** Body of [for i in range(len(trial_actions))] (likelihood mode); the
    loop state is the pair of local lists [(actions, rewards)]. *)
Definition likelihood_step (trial_actions : list Z) (trial_rewards : list R)
    (trial_path : Path) (i : nat) (acc : list Z * list R)
  : M A E G (list Z * list R) :=
  let '(actions, rewards) := acc in
  match trial_actions !! i with
  | None => raise IndexError
  | Some action =>
      match trial_rewards !! i with
      | None => raise IndexError
      | Some reward =>
          choice <- get_action ;;
          let p_stop := snd choice in
          let action_prob := observed_choice_prob action p_stop in
          modify (with_decision_agent
                    (append_action_log_prob (ln action_prob))) ;;;
          let rewards := rewards ++ [reward] in
          let actions := actions ++ [action] in
          no_term <- gets no_term ;;
          (if negb no_term || negb (action =? 0)%Z then
             call_store_action_likelihood action ;;;
             let next_action :=
               if (i =? length trial_actions - 1)%nat then None
               else trial_actions !! S i in
             call_take_action_and_learn action reward next_action trial_path
           else ret tt) ;;;
          ret (actions, rewards)
      end
  end.

(** The [while True] loop of generative mode, unrolled at most [fuel]
    times. *)
Fixpoint generative_loop (fuel : nat) (acc : list Z * list R)
  : M A E G (list Z * list R) :=
  match fuel with
  | O => fun _ => OutOfFuel
  | S fuel' =>
      let '(actions, rewards) := acc in
      choice <- get_action ;;
      let continue_planning := fst choice in
      if (continue_planning =? 0)%Z then
        out <- call_env_step 0 ;;
        let '(reward, done, taken_path) := out in
        call_act_and_learn true ;;;
        let actions := actions ++ [0%Z] in
        let rewards := rewards ++ [reward] in
        let actions := actions ++ [continue_planning] in
        ret (actions, rewards)
      else
        out <- call_act_and_learn false ;;
        let '(action, reward, done, taken_path) := out in
        let rewards := rewards ++ [reward] in
        let actions := actions ++ [action] in
        if (done : bool) then ret (actions, rewards)
        else generative_loop fuel' (actions, rewards)
  end.

(** [all_trials_data[key][trial_num]] *)
Definition trial_data {X} (xs : list X) (trial_num : nat) : M A E G X :=
  match xs !! trial_num with
  | Some x => ret x
  | None => raise IndexError
  end.

(** Body of [for trial_num in range(num_trials)]. *)
Definition run_trial (fuel : nat) (compute_likelihood : bool)
    (all_trials_data : Participant) (trial_num : nat)
    (trials_data : TrialRecord) : M A E G TrialRecord :=
  modify (with_actor_agent clear_trial_buffers) ;;;
  n <- gets (fun w => length (get_available_actions (env w))) ;;
  modify (with_actor_agent (set_num_actions n)) ;;;
  weights <- gets (fun w => get_current_weights (actor_agent w)) ;;
  let trials_data :=
    {| trials_w := trials_w trials_data ++ [weights];
       trials_a := trials_a trials_data;
       trials_r := trials_r trials_data;
       trials_loss := trials_loss trials_data |} in
  trajectory <-
    (if compute_likelihood then
       trial_actions <- trial_data (data_actions all_trials_data) trial_num ;;
       trial_rewards <- trial_data (data_rewards all_trials_data) trial_num ;;
       trial_path <- trial_data (data_taken_paths all_trials_data) trial_num ;;
       foldM (likelihood_step trial_actions trial_rewards trial_path)
             (seq 0 (length trial_actions)) ([], [])
     else generative_loop fuel ([], [])) ;;
  let '(actions, rewards) := trajectory in
  modify (with_env get_next_trial) ;;;
  ret {| trials_w := trials_w trials_data;
         trials_a := trials_a trials_data ++ [actions];
         trials_r := trials_r trials_data ++ [np_sum rewards];
         trials_loss := trials_loss trials_data |}.

(** The last statement of [simulate]: the value stored under ["loss"]. *)
Definition final_loss (decision_log_probs actor_log_probs : list R)
  : option R :=
  if truthy decision_log_probs && truthy actor_log_probs
  then Some (- (np_sum decision_log_probs + np_sum actor_log_probs))
  else None.

(** [trials_data = defaultdict(list)] *)
Definition empty_trials_data : TrialRecord :=
  {| trials_w := []; trials_a := []; trials_r := []; trials_loss := None |}.

(** [HierarchicalLearner.simulate].  [participant] defaults to [None] in the
    source, and the first statement reads [participant.all_trials_data]. *)
Definition simulate (fuel : nat) (compute_likelihood : bool)
    (participant : option Participant) : M A E G TrialRecord :=
  match participant with
  | None => raise (AttributeError "all_trials_data")
  | Some all_trials_data =>
      num_trials <- gets (fun w => num_trials (env w)) ;;
      modify (with_actor_agent actor_init_model_params) ;;;
      modify (with_decision_agent init_model_params) ;;;
      modify (with_env env_reset) ;;;
      n <- gets (fun w => length (get_available_actions (env w))) ;;
      modify (with_actor_agent (set_num_actions n)) ;;;
      trials_data <-
        foldM (run_trial fuel compute_likelihood all_trials_data)
              (seq 0 num_trials) empty_trials_data ;;
      decision_log_probs <-
        gets (fun w => action_log_probs (decision_agent w)) ;;
      actor_log_probs <-
        gets (fun w => actor_action_log_probs (actor_agent w)) ;;
      ret {| trials_w := trials_w trials_data;
             trials_a := trials_a trials_data;
             trials_r := trials_r trials_data;
             trials_loss := final_loss decision_log_probs actor_log_probs |}
  end.

(** The world after the stop branch of generative mode: the terminal step
    in the environment, then the execution agent's end-of-episode call. *)
Definition after_stop (w : World A E G) : World A E G :=
  let e := fst (env_step (env w) 0) in
  let out := act_and_learn true (actor_agent w) e (rng w) in
  with_collaborators (fst (fst (fst out))) (snd (fst (fst out)))
    (snd (fst out)) w.

(** The reward of that terminal step. *)
Definition stop_reward (w : World A E G) : R :=
  fst (fst (snd (env_step (env w) 0))).

(** The world after the execution agent has scored and learned from one
    observed transition (likelihood mode). *)
Definition after_learn (action : Z) (reward : R) (next_action : option Z)
    (trial_path : Path) (w : World A E G) : World A E G :=
  let stored := store_action_likelihood action (actor_agent w) (env w) in
  let out := take_action_and_learn action reward next_action trial_path
               (fst stored) (snd stored) (rng w) in
  with_collaborators (fst (fst out)) (snd (fst out)) (snd out) w.

(** The total that likelihood mode stores under ["r"] for one observed
    trial: the loop runs over [range(len(trial_actions))] and appends
    [trial_rewards[i]], so it sums the first [len(trial_actions)] rewards. *)
Definition replayed_total (trial_actions : list Z) (trial_rewards : list R)
  : R :=
  np_sum (take (length trial_actions) trial_rewards).

(** The world in which the trial loop of [simulate] starts: both agents
    and the environment reset, the actor told the number of actions. *)
Definition run_start (w : World A E G) : World A E G :=
  let w1 := with_actor_agent actor_init_model_params w in
  let w2 := with_decision_agent init_model_params w1 in
  let w3 := with_env env_reset w2 in
  with_actor_agent
    (set_num_actions (length (get_available_actions (env w3)))) w3.

(** What [simulate] returns once the trial loop has produced
    [trials_data]. *)
Definition run_finish (trials_data : TrialRecord) (w : World A E G)
  : TrialRecord :=
  {| trials_w := trials_w trials_data;
     trials_a := trials_a trials_data;
     trials_r := trials_r trials_data;
     trials_loss :=
       final_loss (action_log_probs (decision_agent w))
                  (actor_action_log_probs (actor_agent w)) |}.

End Model.

(** ** Scripted collaborators

    Small concrete implementations of the four interfaces, used to run the
    model on explicit inputs. *)

Module Scripted.

(** An environment whose answers are stored fields; only the trial counter
    moves. *)
Record Env : Type := mkEnv {
  available : list Z;
  trials : nat;
  actions_total : Z;
  trial_num : Z;
  max_dist : R;
  min_dist : R;
  root_return : R;
  terminal_reward : R
}.

Definition set_trial_num (n : Z) (e : Env) : Env :=
  {| available := available e;
     trials := trials e;
     actions_total := actions_total e;
     trial_num := n;
     max_dist := max_dist e;
     min_dist := min_dist e;
     root_return := root_return e;
     terminal_reward := terminal_reward e |}.

#[export] Instance environment : Environment Env := {
  env_reset := set_trial_num 0;
  get_next_trial e := set_trial_num (trial_num e + 1) e;
  get_available_actions := available;
  num_trials := trials;
  num_actions := actions_total;
  present_trial_num := trial_num;
  get_max_dist_value := max_dist;
  get_min_dist_value := min_dist;
  calculate_max_expected_return := root_return;
  compute_termination_feature_values _ _ := [];
  env_step e _ := (e, (terminal_reward e, true, []))
}.

(** The random source is the list of the choices still to be drawn; an
    exhausted list draws element [0].  Normal samples sit at the mean. *)
#[export] Instance random_source : RandomSource (list bool) := {
  random_choice g _ :=
    match g with
    | [] => ([], false)
    | b :: g' => (g', b)
    end;
  random_normal g loc _ := (g, loc)
}.

(** SciPy's gamma density at shape [a = 1], where it is the exponential
    density [exp (- x / scale) / scale] on [x >= 0]; the shape argument is
    not read, so this instance stands for SciPy at [alpha = 1] only.
    The quantile is that of a one-element sequence, its only element. *)
Definition gamma_pdf_shape_one (x : R) (scale : R) : R :=
  if Rlt_dec x 0 then 0 else exp (- x / scale) / scale.

#[export] Instance numeric_lib : NumericLib := {
  gamma_pdf x _ scale := gamma_pdf_shape_one x scale;
  np_quantile xs _ := hd 0 xs
}.

(** The execution agent is its list of stored log-likelihoods.  It always
    clicks node [1] for reward [0] and never ends the trial itself. *)
#[export] Instance execution_agent
  : ExecutionAgent (list R) Env (list bool) := {
  actor_init_model_params _ := [];
  get_current_weights _ := [];
  set_num_actions _ a := a;
  clear_trial_buffers a := a;
  act_and_learn _ a e g := ((a, e, g), (1%Z, 0, false, []));
  store_action_likelihood _ a e := (a ++ [0], e);
  take_action_and_learn _ _ _ _ a e g := (a, e, g);
  actor_action_log_probs a := a
}.

Definition two_actions_env (mer : R) : Env :=
  {| available := [0%Z; 1%Z];
     trials := 1;
     actions_total := 2;
     trial_num := 0;
     max_dist := 10;
     min_dist := 0;
     root_return := mer;
     terminal_reward := 3 |}.

Definition single_action_env : Env :=
  {| available := [0%Z];
     trials := 1;
     actions_total := 2;
     trial_num := 0;
     max_dist := 10;
     min_dist := 0;
     root_return := 8;
     terminal_reward := 3 |}.

(** The agent [HierarchicalAgent(params, attributes)] builds for a rule name
    and parameters with [tau = 0], after it has seen the estimates [hist] and
    logged the log-probabilities [logs]. *)
Definition agent_after (rule : string) (ps : gmap string R)
    (hist logs : list R) : HierarchicalAgent :=
  {| tau := exp 0;
     payoffs := [];
     params := <["tau"%string := 0]> ps;
     decision_rule := rule;
     features := [];
     max_payoff := 0;
     avg_payoff := 0;
     history := hist;
     action_log_probs := logs |}.

Definition agent (rule : string) (ps : gmap string R) : HierarchicalAgent :=
  agent_after rule ps [] [].

Definition world_after (rule : string) (ps : gmap string R) (e : Env)
    (draws : list bool) (hist logs actor : list R)
  : World (list R) Env (list bool) :=
  {| no_term := false;
     decision_agent := agent_after rule ps hist logs;
     actor_agent := actor;
     env := e;
     rng := draws |}.

(** A learner that has not run yet. *)
Definition world (rule : string) (ps : gmap string R) (e : Env)
    (draws : list bool) : World (list R) Env (list bool) :=
  world_after rule ps e draws [] [] [].

(** A stand-in for the floor constant. *)
Definition precision_epsilon : R := / 1000000.

(** One observed trial: a click on node [1], then the terminal action. *)
Definition participant : Participant :=
  {| data_actions := [[1%Z; 0%Z]];
     data_rewards := [[0; 3]];
     data_taken_paths := [[]] |}.

(** Parameter sets of the runs. *)
Definition theta_zero : gmap string R := {[ "theta"%string := 0 ]}.

Definition theta_high : gmap string R := {[ "theta"%string := 3 / 2 ]}.

Definition noisy_params : gmap string R :=
  {[ "alpha"%string := 1; "beta"%string := / 2; "theta"%string := 0 ]}.

(** The stop probability of a [best_payoff] decision at a max expected
    return of [8] with [theta = 0]. *)
Definition p_stop_8 : R := temp_sigmoid (8 - exp 0 * 0) (exp 0).


(** An execution agent whose [init_model_params] leaves its stored
    log-likelihoods in place; in everything else it is
    [execution_agent]. *)
Inductive KeepingActor : Type :=
| keeping (logs : list R).

Definition kept_logs (a : KeepingActor) : list R :=
  match a with
  | keeping logs => logs
  end.

#[export] Instance keeping_agent
  : ExecutionAgent KeepingActor Env (list bool) := {
  actor_init_model_params a := a;
  get_current_weights _ := [];
  set_num_actions _ a := a;
  clear_trial_buffers a := a;
  act_and_learn _ a e g := ((a, e, g), (1%Z, 0, false, []));
  store_action_likelihood _ a e := (keeping (kept_logs a ++ [0]), e);
  take_action_and_learn _ _ _ _ a e g := (a, e, g);
  actor_action_log_probs := kept_logs
}.


End Scripted.

(** The rule names of the [elif] chain of [compute_stop_prob]. *)
Definition known_rules : list string :=
  ["threshold"; "best_payoff"; "average_payoff"; "adaptive_satisficing";
   "feature"; "best_path_difference"; "VPI"; "VOI1"; "maximum_improvement";
   "expected_improvement"; "quantile"; "noisy_memory_best_payoff";
   "confidence_bound"]%string.

(** The rules whose branch starts by reading [decision_params["theta"]]. *)
Definition theta_rules : list string :=
  ["best_payoff"; "average_payoff"; "best_path_difference"; "VPI"; "VOI1";
   "maximum_improvement"; "expected_improvement"; "quantile"]%string.

(** ** The parameter search space ([src/mcrl_modelling/optimizer.py])

    The pure helpers that turn the parameter configuration into the search
    space of the two optimizers.  [hp.uniform], [hp.quniform], [hp.normal]
    and [pyabc.RV] are constructors of the external libraries and stay
    symbolic: the checks they run on their own arguments (hyperopt refuses
    a uniform whose bounds do not increase, SciPy a normal with more than
    two arguments) are not modelled.  [Done] therefore says that a builder
    got through its own indexing, and every list on which the code returns
    is one on which the model returns [Done]; the statements below are
    about the returned spaces only. *)

Module Optimizer.

(** The value stored under ["range"]: a list of numbers for a distribution,
    a bare number for a constant. *)
Inductive range : Type :=
| RangeList (xs : list R)
| RangeValue (x : R).

Inductive config_error : Type :=
| ConfigKeyError (key : string)
| RangeIndexError
| RangeTypeError.

Inductive checked (X : Type) : Type :=
| Done (x : X)
| Failed (e : config_error).

Arguments Done {X} x.
Arguments Failed {X} e.

(** One entry [(param, param_type, param_range)] of a [params_list]. *)
Definition param_row : Type := string * string * range.

(** A parameter dictionary of the configuration, as far as it is read: the
    keys ["type"] and ["range"], each possibly missing. *)
Record param_dict : Type := mkParamDict {
  dict_type : option string;
  dict_range : option range
}.

Definition row_name (row : param_row) : string := row.1.1.

(** [param_range[i]]: a number is not subscriptable, a short list has no
    such index. *)
Definition range_index (param_range : range) (i : nat) : checked R :=
  match param_range with
  | RangeValue _ => Failed RangeTypeError
  | RangeList xs =>
      match xs !! i with
      | Some x => Done x
      | None => Failed RangeIndexError
      end
  end.

(** [param_info] *)
Definition param_info (d : param_dict) (key : string) : checked param_row :=
  match dict_type d with
  | None => Failed (ConfigKeyError "type")
  | Some param_type =>
      match dict_range d with
      | None => Failed (ConfigKeyError "range")
      | Some param_range => Done (key, param_type, param_range)
      end
  end.

(** [make_constant] *)
Definition make_constant (constant_value : range) : param_dict :=
  {| dict_type := Some "constant"%string; dict_range := Some constant_value |}.

(** [get_params_list]: [params_dict] in iteration order; [None] is a falsy
    value ([null], an empty dictionary), [Some d] a non-empty dictionary. *)
Fixpoint get_params_list (params_dict : list (string * option param_dict))
  : checked (list param_row) :=
  match params_dict with
  | [] => Done []
  | (param, None) :: rest => get_params_list rest
  | (param, Some d) :: rest =>
      match param_info d param with
      | Failed e => Failed e
      | Done row =>
          match get_params_list rest with
          | Failed e => Failed e
          | Done rows => Done (row :: rows)
          end
      end
  end.

(** [get_params]: [model_params] is [param_config["model_params"]]. *)
Fixpoint get_params (params : list string)
    (model_params : gmap string param_dict) : checked (list param_row) :=
  match params with
  | [] => Done []
  | param :: rest =>
      match model_params !! param with
      | None => Failed (ConfigKeyError param)
      | Some d =>
          match param_info d param with
          | Failed e => Failed e
          | Done row =>
              match get_params rest model_params with
              | Failed e => Failed e
              | Done rows => Done (row :: rows)
              end
          end
      end
  end.

(** The f-string [f"{t}_{i}"]. *)
Definition indexed_name (t : string) (i : nat) : string :=
  t +:+ "_" +:+ pretty i.

(** The loop [for i in range(num_priors)] of [make_prior], from index
    [i]. *)
Fixpoint make_prior_from (d : param_dict) (t : string) (i count : nat)
  : checked (list param_row) :=
  match count with
  | O => Done []
  | S count' =>
      match param_info d (indexed_name t i) with
      | Failed e => Failed e
      | Done row =>
          match make_prior_from d t (S i) count' with
          | Failed e => Failed e
          | Done rows => Done (row :: rows)
          end
      end
  end.

(** [make_prior] *)
Definition make_prior (d : param_dict) (num_priors : nat)
    (bandit_prior : bool) : checked (list param_row) :=
  let t := if bandit_prior then "bandit_prior"%string else "prior"%string in
  make_prior_from d t 0 num_priors.

(** The loop of [combine_priors], from index [i]. *)
Fixpoint combine_priors_from (params : gmap string R) (prefix : string)
    (i count : nat) : checked (list R) :=
  match count with
  | O => Done []
  | S count' =>
      match params !! indexed_name prefix i with
      | None => Failed (ConfigKeyError (indexed_name prefix i))
      | Some x =>
          match combine_priors_from params prefix (S i) count' with
          | Failed e => Failed e
          | Done xs => Done (x :: xs)
          end
      end
  end.

(** [combine_priors]: the array [init_weights] as a list. *)
Definition combine_priors (params : gmap string R) (num_priors : nat)
    (prefix : string) : checked (list R) :=
  combine_priors_from params prefix 0 num_priors.

(** An entry of the hyperopt space. *)
Inductive hp_entry : Type :=
| HpUniform (label : string) (low high : R)
| HpQUniform (label : string) (low high q : R)
| HpNormal (label : string) (mu sigma : R)
| HpConstant (value : range).

(** Body of the loop of [hyperopt_space]; a constructor call is the
    symbolic entry it would build. *)
Definition hyperopt_step (space : gmap string hp_entry) (row : param_row)
  : checked (gmap string hp_entry) :=
  let '(param, param_type, param_range) := row in
  if negb (String.eqb param_type "constant") then
    match range_index param_range 0 with
    | Failed e => Failed e
    | Done a =>
        match range_index param_range 1 with
        | Failed e => Failed e
        | Done b =>
            if String.eqb param_type "uniform" then
              Done (<[param := HpUniform param a b]> space)
            else if String.eqb param_type "loguniform" then
              Done (<[param := HpUniform param (ln a) (ln b)]> space)
            else if String.eqb param_type "quniform" then
              Done (<[param := HpQUniform param a b 1]> space)
            else if String.eqb param_type "normal" then
              Done (<[param := HpNormal param a b]> space)
            else Done space
        end
    end
  else Done (<[param := HpConstant param_range]> space).

Fixpoint hyperopt_loop (params_list : list param_row)
    (space : gmap string hp_entry) : checked (gmap string hp_entry) :=
  match params_list with
  | [] => Done space
  | row :: rest =>
      match hyperopt_step space row with
      | Failed e => Failed e
      | Done space' => hyperopt_loop rest space'
      end
  end.

(** [hyperopt_space] *)
Definition hyperopt_space (params_list : list param_row)
  : checked (gmap string hp_entry) :=
  match hyperopt_loop params_list ∅ with
  | Failed e => Failed e
  | Done space =>
      Done (<["lik_sigma"%string :=
                HpUniform "lik_sigma" (ln (/ 1000)) (ln 1000)]> space)
  end.

(** [pyabc.RV(name, *args)]; an argument is a number or, for a constant,
    the stored range as it is. *)
Inductive rv : Type :=
| RV (name : string) (args : list range).

(** Body of the loop of [pyabc_prior]; a constructor call is the symbolic
    random variable it would build. *)
Definition pyabc_step (prior : gmap string rv) (row : param_row)
  : checked (gmap string rv) :=
  let '(param, param_type, param_range) := row in
  if negb (String.eqb param_type "constant") then
    match range_index param_range 0 with
    | Failed e => Failed e
    | Done a =>
        match range_index param_range 1 with
        | Failed e => Failed e
        | Done b =>
            if String.eqb param_type "uniform"
               || String.eqb param_type "quniform" then
              Done (<[param := RV "uniform"
                                 [RangeValue a; RangeValue (b - a)]]> prior)
            else if String.eqb param_type "loguniform" then
              Done (<[param := RV "uniform"
                                 [RangeValue (ln a);
                                  RangeValue (ln b - ln a)]]> prior)
            else if String.eqb param_type "normal" then
              Done (<[param := RV "norm"
                                 match param_range with
                                 | RangeList xs => RangeValue <$> xs
                                 | RangeValue x => [RangeValue x]
                                 end]> prior)
            else Done prior
        end
    end
  else Done (<[param := RV "uniform" [param_range; RangeValue 0]]> prior).

Fixpoint pyabc_loop (params_list : list param_row) (prior : gmap string rv)
  : checked (gmap string rv) :=
  match params_list with
  | [] => Done prior
  | row :: rest =>
      match pyabc_step prior row with
      | Failed e => Failed e
      | Done prior' => pyabc_loop rest prior'
      end
  end.

(** [pyabc_prior]: the keyword arguments handed to [pyabc.Distribution]. *)
Definition pyabc_prior (params_list : list param_row)
  : checked (gmap string rv) :=
  pyabc_loop params_list ∅.

(** The pyabc random variable that [pyabc_prior] pairs with an entry of
    the hyperopt space: [uniform(loc, scale)] starts at the entry's lower
    bound and has its width; a constant is the same stored value with
    scale [0]; a normal starts with the same mean and deviation. *)
Inductive same_dimension : hp_entry -> rv -> Prop :=
| same_uniform label low high :
    same_dimension (HpUniform label low high)
      (RV "uniform" [RangeValue low; RangeValue (high - low)])
| same_quniform label low high q :
    same_dimension (HpQUniform label low high q)
      (RV "uniform" [RangeValue low; RangeValue (high - low)])
| same_normal label mu sigma more :
    same_dimension (HpNormal label mu sigma)
      (RV "norm" (RangeValue mu :: RangeValue sigma :: more))
| same_constant value :
    same_dimension (HpConstant value) (RV "uniform" [value; RangeValue 0]).

End Optimizer.

(** ** More scripted inputs *)

Module Samples.

(** A learner with [no_term] set, otherwise as [Scripted.world]. *)
Definition no_term_world (rule : string) (ps : gmap string R)
    (e : Scripted.Env) (draws : list bool)
  : World (list R) Scripted.Env (list bool) :=
  {| no_term := true;
     decision_agent := Scripted.agent rule ps;
     actor_agent := [];
     env := e;
     rng := draws |}.

(** Learners that have not run yet, one per rule exercised below, all on
    the environment with two available actions. *)
Definition unknown_rule_world : World (list R) Scripted.Env (list bool) :=
  Scripted.world "satisficing" ∅ (Scripted.two_actions_env 8) [].

Definition feature_world : World (list R) Scripted.Env (list bool) :=
  Scripted.world "feature" ∅ (Scripted.two_actions_env 8) [].

Definition vpi_world : World (list R) Scripted.Env (list bool) :=
  Scripted.world "VPI" ∅ (Scripted.two_actions_env 8) [].

Definition noisy_world : World (list R) Scripted.Env (list bool) :=
  Scripted.world "noisy_memory_best_payoff" Scripted.noisy_params
    (Scripted.two_actions_env 0) [].

Definition quantile_world : World (list R) Scripted.Env (list bool) :=
  Scripted.world "quantile" Scripted.theta_high
    (Scripted.two_actions_env 8) [].

Definition best_payoff_world (draws : list bool)
  : World (list R) Scripted.Env (list bool) :=
  Scripted.world "best_payoff" Scripted.theta_zero
    (Scripted.two_actions_env 8) draws.

Definition single_action_world : World (list R) Scripted.Env (list bool) :=
  Scripted.world "feature" ∅ Scripted.single_action_env [].

(** [compute_stop_prob] called with an empty [path_history]. *)
Definition empty_history_args : StopArgs :=
  {| max_expected_return := 0;
     arg_max_payoff := 0;
     arg_avg_payoff := 0;
     vpi := 0;
     voi := 0;
     max_improvement := 0;
     expected_improvement := 0;
     path_history := [] |}.

Definition spread_params : gmap string R :=
  {[ "threshold_mean"%string := 0; "threshold_var"%string := -1 ]}.

Definition spread_world : World (list R) Scripted.Env (list bool) :=
  Scripted.world "confidence_bound" spread_params
    (Scripted.two_actions_env 8) [].

Definition unit_interval : Optimizer.param_dict :=
  {| Optimizer.dict_type := Some "uniform"%string;
     Optimizer.dict_range := Some (Optimizer.RangeList [0; 1]) |}.

(** A [params_list] with one uniform parameter and a constant that is named
    like the key [hyperopt_space] adds itself. *)
Definition sample_rows : list Optimizer.param_row :=
  [("theta"%string, "uniform"%string, Optimizer.RangeList [0; 1]);
   ("lik_sigma"%string, "constant"%string, Optimizer.RangeValue 5)].

Definition sample_config : list (string * option Optimizer.param_dict) :=
  [("alpha"%string, Some unit_interval); ("beta"%string, None)].

(** The two search spaces built from [sample_rows]. *)
Definition sample_space : gmap string Optimizer.hp_entry :=
  <["lik_sigma"%string :=
      Optimizer.HpUniform "lik_sigma" (ln (/ 1000)) (ln 1000)]>
    (<["lik_sigma"%string := Optimizer.HpConstant (Optimizer.RangeValue 5)]>
       (<["theta"%string := Optimizer.HpUniform "theta" 0 1]> ∅)).

Definition sample_prior : gmap string Optimizer.rv :=
  <["lik_sigma"%string :=
      Optimizer.RV "uniform"
        [Optimizer.RangeValue 5; Optimizer.RangeValue 0]]>
    (<["theta"%string :=
         Optimizer.RV "uniform"
           [Optimizer.RangeValue 0; Optimizer.RangeValue (1 - 0)]]> ∅).

(** A sampled point with the two prior weights. *)
Definition sample_point : gmap string R :=
  {[ "prior_0"%string := 1; "prior_1"%string := 2 ]}.

End Samples.

(** * Properties *)

(** ** Running statistics of the termination agent *)

Lemma record_payoffs_snoc (rs : list R) (r : R) (a : HierarchicalAgent) :
  record_payoffs (rs ++ [r]) a = update_payoffs r (record_payoffs rs a).
Proof. unfold record_payoffs. now rewrite fold_left_app. Qed.

Lemma record_payoffs_payoffs (rs : list R) (a : HierarchicalAgent) :
  payoffs (record_payoffs rs a) = payoffs a ++ rs.
Proof.
  revert a. induction rs as [|r rs IH]; intros a.
  - simpl. now rewrite app_nil_r.
  - change (record_payoffs (r :: rs) a)
      with (record_payoffs rs (update_payoffs r a)).
    rewrite IH. simpl. now rewrite <- app_assoc.
Qed.

(** The mean is recomputed from the whole list at every call, so it is the
    mean of everything recorded since the reset. *)
Lemma record_payoffs_avg (rs : list R) (a : HierarchicalAgent) :
  rs <> [] ->
  avg_payoff (record_payoffs rs (init_model_params a)) = rows_mean rs.
Proof.
  destruct rs as [|r rs _] using rev_ind; [easy|]. intros _.
  rewrite record_payoffs_snoc. simpl.
  now rewrite record_payoffs_payoffs.
Qed.

(** The running maximum starts from the [0] of the reset, not from the first
    payoff: it is the maximum of [0] and everything recorded. *)
Lemma record_payoffs_max (rs : list R) (a : HierarchicalAgent) :
  max_payoff (record_payoffs rs a) = fold_left Rmax rs (max_payoff a).
Proof.
  revert a. induction rs as [|r rs IH]; intros a; [reflexivity|].
  change (record_payoffs (r :: rs) a)
    with (record_payoffs rs (update_payoffs r a)).
  rewrite IH. simpl. f_equal.
  unfold Rmax. destruct (Rgt_dec r (max_payoff a)), (Rle_dec (max_payoff a) r);
    lra.
Qed.

Lemma fold_left_Rmax_ge (rs : list R) (m : R) : m <= fold_left Rmax rs m.
Proof.
  revert m. induction rs as [|r rs IH]; intros m; simpl; [lra|].
  eapply Rle_trans; [apply (Rmax_l m r)|apply IH].
Qed.

Lemma record_payoffs_max_nonneg (rs : list R) (a : HierarchicalAgent) :
  0 <= max_payoff (record_payoffs rs (init_model_params a)).
Proof. rewrite record_payoffs_max. apply fold_left_Rmax_ge. Qed.

(** C3, evaluated on one negative payoff recorded after a reset: the list
    holds [-1], whose maximum is [-1], the mean is [-1], and [max_payoff]
    is still the [0] of the reset. *)
Lemma update_payoffs_negative_keeps_zero_max :
  let a := record_payoffs [-1]
             (init_model_params (Scripted.agent "best_payoff" ∅)) in
  payoffs a = [-1] /\
  py_max (payoffs a) = Some (-1) /\
  avg_payoff a = -1 /\
  max_payoff a = 0 /\
  max_payoff a <> -1.
Proof.
  cbn. repeat split.
  - unfold rows_mean. cbn. lra.
  - destruct (Rgt_dec (-1) 0); lra.
  - destruct (Rgt_dec (-1) 0); lra.
Qed.

(** ** The Sigmoid Scorer *)

Lemma temp_sigmoid_range (score t : R) :
  0 < temp_sigmoid score t < 1.
Proof.
  unfold temp_sigmoid.
  pose proof (exp_pos (- score / t)) as Hexp.
  split.
  - apply Rdiv_lt_0_compat; lra.
  - apply Rmult_lt_reg_r with (1 + exp (- score / t)); [lra|].
    unfold Rdiv. rewrite Rmult_assoc, Rinv_l by lra. lra.
Qed.

Lemma temp_sigmoid_zero (t : R) : temp_sigmoid 0 t = 1 / 2.
Proof.
  unfold temp_sigmoid.
  replace (- 0 / t) with 0 by (unfold Rdiv; ring).
  rewrite exp_0. lra.
Qed.

Lemma temp_sigmoid_positive_score (score : R) :
  0 < score -> 1 / 2 < temp_sigmoid score (exp 0).
Proof.
  intros Hs. unfold temp_sigmoid. rewrite exp_0.
  replace (- score / 1) with (- score) by lra.
  assert (exp (- score) < exp 0) as Hlt by (apply exp_increasing; lra).
  rewrite exp_0 in Hlt.
  pose proof (exp_pos (- score)) as Hpos.
  apply Rmult_lt_reg_r with (1 + exp (- score)); [lra|].
  unfold Rdiv at 2. rewrite Rmult_assoc, Rinv_l by lra. lra.
Qed.

(** ** Reasoning rules of the monad *)

Section Frames.

Context {A E G : Type}.

Lemma bind_Ok {X Y} (m : M A E G X) (k : X -> M A E G Y) w y w' :
  bind m k w = Ok (y, w') ->
  exists x w1, m w = Ok (x, w1) /\ k x w1 = Ok (y, w').
Proof.
  unfold bind. destruct (m w) as [[x w1]| |]; [|discriminate..].
  intros Hk. now exists x, w1.
Qed.

Lemma returns_ret {X} (P : X -> Prop) (x : X) :
  P x -> returns (A:=A) (E:=E) (G:=G) P (ret x).
Proof. intros HP w x' w' [= <- _]. exact HP. Qed.

Lemma returns_raise {X} (P : X -> Prop) (e : py_error) :
  returns (A:=A) (E:=E) (G:=G) P (raise e).
Proof. intros w x' w' [=]. Qed.

Lemma returns_bind {X Y} (P : Y -> Prop) (m : M A E G X)
    (k : X -> M A E G Y) :
  (forall x, returns P (k x)) -> returns P (bind m k).
Proof.
  intros Hk w y w' Hrun.
  apply bind_Ok in Hrun as (x & w1 & _ & H2). eapply Hk, H2.
Qed.

Context {rel : World A E G -> World A E G -> Prop}.
Context `{!Reflexive rel, !Transitive rel}.

Lemma frames_ret {X} (x : X) : frames rel (ret x).
Proof. intros w x' w' [= _ <-]. reflexivity. Qed.

Lemma frames_gets {X} (f : World A E G -> X) : frames rel (gets f).
Proof. intros w x' w' [= _ <-]. reflexivity. Qed.

Lemma frames_raise {X} (e : py_error) : frames rel (raise (X := X) e).
Proof. intros w x' w' [=]. Qed.

Lemma frames_modify (f : World A E G -> World A E G) :
  (forall w, rel w (f w)) -> frames rel (modify f).
Proof. intros Hf w x' w' [= _ <-]. apply Hf. Qed.

Lemma frames_bind {X Y} (m : M A E G X) (k : X -> M A E G Y) :
  frames rel m -> (forall x, frames rel (k x)) -> frames rel (bind m k).
Proof.
  intros Hm Hk w y w' Hrun.
  apply bind_Ok in Hrun as (x & w1 & H1 & H2).
  transitivity w1; [eapply Hm|eapply Hk]; eassumption.
Qed.

Lemma frames_foldM {X S} (f : X -> S -> M A E G S) (xs : list X) :
  (forall x s, frames rel (f x s)) -> forall s, frames rel (foldM f xs s).
Proof.
  intros Hf. induction xs as [|x xs IH]; intros s; simpl.
  - apply frames_ret.
  - apply frames_bind; [apply Hf|apply IH].
Qed.

End Frames.

#[global] Instance same_statistics_refl {A E G} :
  Reflexive (@same_statistics A E G).
Proof. now intros w. Qed.

#[global] Instance same_statistics_trans {A E G} :
  Transitive (@same_statistics A E G).
Proof.
  intros w1 w2 w3 (H1 & H2 & H3) (H4 & H5 & H6).
  repeat split; congruence.
Qed.

#[global] Instance same_but_rng_refl {A E G} : Reflexive (@same_but_rng A E G).
Proof. now intros w. Qed.

#[global] Instance same_but_rng_trans {A E G} :
  Transitive (@same_but_rng A E G).
Proof.
  intros w1 w2 w3 (H1 & H2 & H3 & H4) (H5 & H6 & H7 & H8).
  repeat split; congruence.
Qed.

(** Decomposes a goal [frames rel m] along the binds, branches and calls of
    [m], leaving the effectful leaves. *)
Ltac frames_step :=
  first
    [ apply frames_ret
    | apply frames_gets
    | apply frames_raise
    | apply frames_bind; [|intros ?]
    | match goal with
      | |- frames _ (if ?c then _ else _) => destruct c
      | |- frames _ (match ?c with _ => _ end) => destruct c
      | |- frames _ (let '(_, _) := ?c in _) => destruct c
      end ].

(** ** The decision rule evaluator *)

Section Evaluator.
Context {A E G : Type}.
Context `{Environment E, RandomSource G, NumericLib, ExecutionAgent A E G}.

Lemma get_param_frames key :
  frames (A:=A) (E:=E) (G:=G) same_but_rng (get_param key).
Proof.
  intros w x w'. unfold get_param.
  destruct (params (decision_agent w) !! key); [|discriminate].
  intros [= _ <-]. reflexivity.
Qed.

Lemma np_random_normal_frames loc scale :
  frames (A:=A) (E:=E) same_but_rng (np_random_normal loc scale).
Proof.
  intros w x w'. unfold np_random_normal.
  destruct (Rlt_dec scale 0); [discriminate|].
  destruct (random_normal (rng w) loc scale) as [g y].
  intros [= _ <-]. now unfold same_but_rng.
Qed.

Lemma evaluate_rule_frames args rule t :
  rule <> "quantile"%string ->
  frames (A:=A) (E:=E) same_but_rng (evaluate_rule args rule t).
Proof.
  intros Hrule. unfold evaluate_rule.
  repeat match goal with
         | |- frames _ (if String.eqb ?a ?b then _ else _) =>
             destruct (String.eqb_spec a b)
         end; try contradiction;
  repeat first
    [ apply get_param_frames
    | apply np_random_normal_frames
    | apply frames_foldM; intros; unfold noisy_memory_term
    | frames_step ].
Qed.

Lemma compute_stop_prob_frames args (w : World A E G) :
  decision_rule (decision_agent w) <> "quantile"%string ->
  forall p w', compute_stop_prob args w = Ok (p, w') -> same_but_rng w w'.
Proof.
  intros Hrule p w'. unfold compute_stop_prob, bind at 1 2 3, gets.
  destruct (length (get_available_actions (env w)) =? 1)%nat.
  - intros [= _ <-]. reflexivity.
  - apply evaluate_rule_frames, Hrule.
Qed.

(** The check on the number of available actions comes first. *)
Lemma compute_stop_prob_single_action args (w : World A E G) :
  length (get_available_actions (env w)) = 1%nat ->
  compute_stop_prob args w = Ok (1, w).
Proof.
  intros Hlen. unfold compute_stop_prob, bind, gets.
  now rewrite Hlen.
Qed.

(** C7: when the environment reports exactly one available action,
    [compute_stop_prob] returns [1.0] and leaves the world as it was, for
    every rule name (known or not), every parameter set and every argument:
    the rule is not evaluated, so no parameter is read or written, no
    random number is drawn and no exception of a rule can occur. *)
Theorem single_action_forces_stop args (w : World A E G) :
  length (get_available_actions (env w)) = 1%nat ->
  compute_stop_prob args w = Ok (1, w).
Proof. apply compute_stop_prob_single_action. Qed.

Lemma get_param_run {X} key v (k : R -> M A E G X) (w : World A E G) :
  params (decision_agent w) !! key = Some v ->
  bind (get_param key) k w = k v w.
Proof. intros Hkey. unfold bind, get_param. now rewrite Hkey. Qed.

(** The [quantile] branch: the clamp is written back into the stored
    parameters before the quantile is taken. *)
Lemma quantile_rule_run args (w : World A E G) t theta :
  params (decision_agent w) !! "theta"%string = Some theta ->
  evaluate_rule args "quantile" t w =
    if Rgt_dec theta 1 then
      bind (quantile (path_history args) 1) (fun q => ret (temp_sigmoid q t))
        (with_decision_agent
           (fun a => set_params (<["theta"%string := 1]> (params a)) a) w)
    else if Rlt_dec theta 0 then
      bind (quantile (path_history args) 0) (fun q => ret (temp_sigmoid q t))
        (with_decision_agent
           (fun a => set_params (<["theta"%string := 0]> (params a)) a) w)
    else
      bind (quantile (path_history args) theta)
        (fun q => ret (temp_sigmoid q t)) w.
Proof.
  intros Htheta. unfold evaluate_rule. cbn [String.eqb Ascii.eqb Bool.eqb].
  rewrite (get_param_run _ theta) by exact Htheta.
  destruct (Rgt_dec theta 1) as [Hgt|Hle].
  - unfold bind at 1, set_param, modify.
    rewrite (get_param_run _ 1) by apply lookup_insert_eq.
    destruct (Rlt_dec 1 0); [lra|].
    unfold bind at 1, ret at 1.
    now rewrite (get_param_run _ 1) by apply lookup_insert_eq.
  - unfold bind at 1, ret at 1.
    rewrite (get_param_run _ theta) by exact Htheta.
    destruct (Rlt_dec theta 0) as [Hlt|Hge].
    + unfold bind at 1, set_param, modify.
      now rewrite (get_param_run _ 0) by apply lookup_insert_eq.
    + unfold bind at 1, ret at 1.
      now rewrite (get_param_run _ theta) by exact Htheta.
Qed.

Lemma quantile_frames xs q :
  frames (A:=A) (E:=E) (G:=G) same_but_rng (quantile xs q).
Proof. unfold quantile. destruct xs; frames_step. Qed.

(** C8, amended: a returning call of [compute_stop_prob] leaves the
    parameter mapping as it was for every rule but [quantile], for every
    rule when one action is available, and under [quantile] when the stored
    [theta] lies in [[0,1]].  Under [quantile] with more than one action (or
    none) available, a stored [theta] above [1] is overwritten with [1] and
    a stored [theta] below [0] with [0]; no other key changes. *)
Theorem compute_stop_prob_params args (w w' : World A E G) (p : R) :
  compute_stop_prob args w = Ok (p, w') ->
  let ps := params (decision_agent w) in
  let ps' := params (decision_agent w') in
  let rule := decision_rule (decision_agent w) in
  let n := length (get_available_actions (env w)) in
  (rule <> "quantile"%string -> ps' = ps) /\
  (n = 1%nat -> ps' = ps) /\
  (forall theta, ps !! "theta"%string = Some theta ->
     (0 <= theta <= 1 -> ps' = ps) /\
     (rule = "quantile"%string -> n <> 1%nat -> 1 < theta ->
      ps' = <["theta"%string := 1]> ps) /\
     (rule = "quantile"%string -> n <> 1%nat -> theta < 0 ->
      ps' = <["theta"%string := 0]> ps)).
Proof.
  intros Hrun ps ps' rule n.
  assert (rule <> "quantile"%string -> ps' = ps) as Hother.
  { intros Hrule. apply compute_stop_prob_frames in Hrun; [|exact Hrule].
    destruct Hrun as (_ & Hagent & _). subst ps ps'. now rewrite Hagent. }
  assert (n = 1%nat -> ps' = ps) as Hsingle.
  { intros Hn. rewrite compute_stop_prob_single_action in Hrun by exact Hn.
    now injection Hrun as _ <-. }
  split; [exact Hother|]. split; [exact Hsingle|].
  intros theta Htheta.
  destruct (decide (n = 1%nat)) as [Hn|Hn].
  { repeat split; intros; solve [auto | contradiction]. }
  destruct (decide (rule = "quantile"%string)) as [Hrule|Hrule].
  2: { repeat split; intros; solve [auto | contradiction]. }
  unfold compute_stop_prob, bind at 1 2 3, gets in Hrun.
  apply Nat.eqb_neq in Hn. fold n in Hrun. rewrite Hn in Hrun.
  fold rule in Hrun. rewrite Hrule in Hrun.
  rewrite (quantile_rule_run _ _ _ theta) in Hrun by exact Htheta.
  destruct (Rgt_dec theta 1) as [Hgt|Hle]; [|destruct (Rlt_dec theta 0)].
  - apply bind_Ok in Hrun as (q & w1 & Hq & [= _ <-]).
    apply quantile_frames in Hq as (_ & Hagent & _).
    subst ps'. rewrite Hagent. repeat split; intros; solve [lra | reflexivity].
  - apply bind_Ok in Hrun as (q & w1 & Hq & [= _ <-]).
    apply quantile_frames in Hq as (_ & Hagent & _).
    subst ps'. rewrite Hagent. repeat split; intros; solve [lra | reflexivity].
  - apply bind_Ok in Hrun as (q & w1 & Hq & [= _ <-]).
    apply quantile_frames in Hq as (_ & Hagent & _).
    subst ps'. rewrite Hagent. repeat split; intros; solve [lra | reflexivity].
Qed.
End Evaluator.


(** ** Range of the returned stop probability *)

Section Range.
Context {A E G : Type}.
Context `{Environment E, RandomSource G, NumericLib, ExecutionAgent A E G}.

Ltac returns_step :=
  first
    [ apply returns_raise
    | apply returns_ret;
      match goal with
      | |- 0 <= temp_sigmoid ?s ?t <= 1 =>
          pose proof (temp_sigmoid_range s t); lra
      | |- _ => lra
      end
    | apply returns_bind; intros ?
    | match goal with
      | |- returns _ (if ?c then _ else _) => destruct c
      | |- returns _ (match ?c with _ => _ end) => destruct c
      end ].

Lemma evaluate_rule_range args rule t :
  rule <> "noisy_memory_best_payoff"%string ->
  returns (A:=A) (E:=E) (G:=G) (fun p => 0 <= p <= 1)
    (evaluate_rule args rule t).
Proof.
  intros Hrule. unfold evaluate_rule.
  repeat match goal with
         | |- returns _ (if String.eqb ?a ?b then _ else _) =>
             destruct (String.eqb_spec a b)
         end; try contradiction;
    unfold quantile; repeat returns_step.
Qed.

(** X12: Whenever [compute_stop_prob] returns under a rule other than
    ["noisy_memory_best_payoff"], the value it returns lies in [[0, 1]]:
    each of these rules returns one sigmoid value, or [1.0]. *)
Lemma compute_stop_prob_range args (w w' : World A E G) p :
  decision_rule (decision_agent w) <> "noisy_memory_best_payoff"%string ->
  compute_stop_prob args w = Ok (p, w') ->
  0 <= p <= 1.
Proof.
  intros Hrule. unfold compute_stop_prob, bind at 1 2 3, gets.
  destruct (_ =? _)%nat.
  - intros [= <- _]. lra.
  - apply evaluate_rule_range, Hrule.
Qed.

(** The [noisy_memory_best_payoff] branch on a history of one value [v]:
    no value is higher, so [p_forget_higher] stays [1], and
    [p_forget_reward] is the density at the one time delta. *)
Lemma noisy_memory_single_value args (w : World A E G) alpha beta theta v :
  decision_rule (decision_agent w) = "noisy_memory_best_payoff"%string ->
  length (get_available_actions (env w)) <> 1%nat ->
  params (decision_agent w) !! "alpha"%string = Some alpha ->
  params (decision_agent w) !! "beta"%string = Some beta ->
  params (decision_agent w) !! "theta"%string = Some theta ->
  path_history args = [v] ->
  compute_stop_prob args w =
    Ok (0 + (1 - 1 * gamma_pdf (IZR (present_trial_num (env w) - 0)) alpha beta)
            * 1
            * temp_sigmoid (max_expected_return args - exp theta * v)
                (tau (decision_agent w)),
        w).
Proof.
  intros Hrule Hlen Halpha Hbeta Htheta Hhist.
  unfold compute_stop_prob, bind at 1 2 3, gets.
  apply Nat.eqb_neq in Hlen. rewrite Hlen, Hrule.
  unfold evaluate_rule. cbn [String.eqb Ascii.eqb Bool.eqb].
  rewrite (get_param_run _ alpha) by exact Halpha.
  rewrite (get_param_run _ beta) by exact Hbeta.
  unfold bind at 1, gets. rewrite Hhist.
  cbn [remove_dups foldM].
  destruct (decide_rel elem_of v []) as [Hin|_];
    [now apply elem_of_nil in Hin|].
  cbn [foldM]. unfold bind at 1, noisy_memory_term. rewrite Hhist.
  cbn [forget_products fst snd].
  destruct (Rgt_dec v v) as [Hgt|_]; [lra|].
  destruct (decide (v = v)) as [_|Hne]; [|contradiction].
  cbn [fst snd].
  rewrite (get_param_run _ theta) by exact Htheta.
  reflexivity.
Qed.

(** With a density above [1] at that delta the returned value is negative. *)
Lemma noisy_memory_negative args (w : World A E G) alpha beta theta v :
  decision_rule (decision_agent w) = "noisy_memory_best_payoff"%string ->
  length (get_available_actions (env w)) <> 1%nat ->
  params (decision_agent w) !! "alpha"%string = Some alpha ->
  params (decision_agent w) !! "beta"%string = Some beta ->
  params (decision_agent w) !! "theta"%string = Some theta ->
  path_history args = [v] ->
  1 < gamma_pdf (IZR (present_trial_num (env w) - 0)) alpha beta ->
  exists p, compute_stop_prob args w = Ok (p, w) /\ p < 0.
Proof.
  intros Hrule Hlen Halpha Hbeta Htheta Hhist Hpdf.
  eexists. split; [eapply noisy_memory_single_value; eassumption|].
  pose proof (temp_sigmoid_range (max_expected_return args - exp theta * v)
                (tau (decision_agent w))).
  nra.
Qed.
End Range.

(** ** The decision step *)

Section Decide.
Context {A E G : Type}.
Context `{Environment E, RandomSource G, NumericLib, ExecutionAgent A E G}.

Lemma get_action_unfold (w : World A E G) :
  let mer := calculate_max_expected_return (env w) in
  let w1 := with_decision_agent (update_history mer) w in
  get_action w =
    (p_stop <- compute_stop_prob
                 (get_action_args mer (history (decision_agent w1))) ;;
     termination_choice <- np_random_choice p_stop ;;
     ret (termination_choice, p_stop)) w1.
Proof. reflexivity. Qed.

Lemma np_random_choice_no_index_error p (w : World A E G) :
  np_random_choice p w <> Raise IndexError.
Proof.
  unfold np_random_choice.
  destruct (Rle_dec 0 p); [|discriminate].
  destruct (Rle_dec 0 (1 - p)); [|discriminate].
  destruct (random_choice (rng w) p). discriminate.
Qed.

(** C10: [get_action] appends the current step's max expected return to
    [history] and only then calls [compute_stop_prob], handing it that
    extended list as [path_history]; the list therefore ends with the current
    estimate and is never empty, and under the [quantile] rule the decision
    cannot fail with the error of a quantile over an empty sequence. *)
Theorem get_action_history_nonempty (w : World A E G) :
  let mer := calculate_max_expected_return (env w) in
  let w1 := with_decision_agent (update_history mer) w in
  let args := get_action_args mer (history (decision_agent w1)) in
  get_action w =
    (p_stop <- compute_stop_prob args ;;
     termination_choice <- np_random_choice p_stop ;;
     ret (termination_choice, p_stop)) w1 /\
  path_history args = history (decision_agent w) ++ [mer] /\
  path_history args <> [] /\
  (decision_rule (decision_agent w) = "quantile"%string ->
   get_action w <> Raise IndexError).
Proof.
  intros mer w1 args.
  assert (path_history args = history (decision_agent w) ++ [mer]) as Hargs
    by reflexivity.
  split; [apply get_action_unfold|]. split; [exact Hargs|].
  split; [rewrite Hargs; now destruct (history (decision_agent w))|].
  intros Hrule. rewrite get_action_unfold. fold mer w1 args.
  assert (forall p w2,
             (termination_choice <- np_random_choice p ;;
              ret (termination_choice, p)) w2
             <> Raise (A:=Z * R * World A E G) IndexError) as Hchoice.
  { intros p w2. unfold bind.
    pose proof (np_random_choice_no_index_error p w2) as Hne.
    destruct (np_random_choice p w2) as [[c w3]|e|];
      [discriminate|congruence|discriminate]. }
  unfold bind at 1.
  destruct (compute_stop_prob args w1) as [[p w2]|e|] eqn:Hrun;
    [apply Hchoice| |discriminate].
  intros [= ->].
  unfold compute_stop_prob, bind at 1 2 3, gets in Hrun.
  destruct (length (get_available_actions (env w1)) =? 1)%nat; [discriminate|].
  change (decision_rule (decision_agent w1))
    with (decision_rule (decision_agent w)) in Hrun.
  rewrite Hrule in Hrun.
  destruct (params (decision_agent w1) !! "theta"%string) as [theta|]
    eqn:Htheta.
  - rewrite (quantile_rule_run _ _ _ theta) in Hrun by exact Htheta.
    rewrite Hargs in Hrun.
    destruct (history (decision_agent w) ++ [mer]) as [|x xs] eqn:Hhist.
    { now destruct (history (decision_agent w)). }
    destruct (Rgt_dec theta 1); [|destruct (Rlt_dec theta 0)]; discriminate.
  - unfold evaluate_rule in Hrun. cbn [String.eqb Ascii.eqb Bool.eqb] in Hrun.
    unfold bind at 1, get_param in Hrun. rewrite Htheta in Hrun. discriminate.
Qed.

Lemma np_random_choice_run p (w : World A E G) :
  0 <= p <= 1 ->
  np_random_choice p w =
    Ok (Z.b2z (snd (random_choice (rng w) p)),
        with_rng (fst (random_choice (rng w) p)) w).
Proof.
  intros [Hlo Hhi]. unfold np_random_choice.
  destruct (Rle_dec 0 p); [|lra].
  destruct (Rle_dec 0 (1 - p)); [|lra].
  now destruct (random_choice (rng w) p).
Qed.

(** What [get_action] computes under the [best_payoff] rule: the score is
    [max_expected_return - exp theta * 0], the [0] being the default of the
    [max_payoff] keyword that the call leaves out. *)
Lemma get_action_best_payoff (w : World A E G) theta :
  decision_rule (decision_agent w) = "best_payoff"%string ->
  length (get_available_actions (env w)) <> 1%nat ->
  params (decision_agent w) !! "theta"%string = Some theta ->
  let mer := calculate_max_expected_return (env w) in
  let p_stop := temp_sigmoid (mer - exp theta * 0) (tau (decision_agent w)) in
  let w1 := with_decision_agent (update_history mer) w in
  get_action w =
    Ok ((Z.b2z (snd (random_choice (rng w) p_stop)), p_stop),
        with_rng (fst (random_choice (rng w) p_stop)) w1).
Proof.
  intros Hrule Hlen Htheta mer p_stop w1.
  rewrite get_action_unfold. fold mer w1.
  unfold compute_stop_prob, bind at 1 2 3 4, gets.
  apply Nat.eqb_neq in Hlen.
  change (env w1) with (env w). rewrite Hlen.
  change (decision_rule (decision_agent w1)) with (decision_rule (decision_agent w)).
  rewrite Hrule. unfold evaluate_rule. cbn [String.eqb Ascii.eqb Bool.eqb].
  rewrite (get_param_run _ theta) by exact Htheta.
  unfold ret at 1. cbn [get_action_args max_expected_return arg_max_payoff default_args].
  change (tau (decision_agent w1)) with (tau (decision_agent w)). fold p_stop.
  unfold bind at 1. rewrite np_random_choice_run.
  - reflexivity.
  - pose proof (temp_sigmoid_range (mer - exp theta * 0) (tau (decision_agent w))).
    subst p_stop. lra.
Qed.
End Decide.

(** ** The simulation controller *)

Section Controller.
Context {A E G : Type}.
Context `{Environment E, RandomSource G, NumericLib, ExecutionAgent A E G}.
Variable precision_epsilon : R.

Lemma get_param_same_statistics key :
  frames (A:=A) (E:=E) (G:=G) same_statistics (get_param key).
Proof.
  intros w x w'. unfold get_param.
  destruct (params (decision_agent w) !! key); [|discriminate].
  intros [= _ <-]. reflexivity.
Qed.

Lemma set_param_same_statistics key v :
  frames (A:=A) (E:=E) (G:=G) same_statistics (set_param key v).
Proof. apply frames_modify. now intros w. Qed.

Lemma np_random_normal_same_statistics loc scale :
  frames (A:=A) (E:=E) same_statistics (np_random_normal loc scale).
Proof.
  intros w x w'. unfold np_random_normal.
  destruct (Rlt_dec scale 0); [discriminate|].
  destruct (random_normal (rng w) loc scale) as [g y].
  now intros [= _ <-].
Qed.

Lemma np_random_choice_same_statistics p :
  frames (A:=A) (E:=E) same_statistics (np_random_choice p).
Proof.
  intros w x w'. unfold np_random_choice.
  destruct (Rle_dec 0 p); [|discriminate].
  destruct (Rle_dec 0 (1 - p)); [|discriminate].
  destruct (random_choice (rng w) p) as [g b].
  now intros [= _ <-].
Qed.

Ltac statistics_step :=
  first
    [ apply get_param_same_statistics
    | apply set_param_same_statistics
    | apply np_random_normal_same_statistics
    | apply np_random_choice_same_statistics
    | apply frames_foldM; intros
    | frames_step ].

Lemma compute_stop_prob_same_statistics args :
  frames (A:=A) (E:=E) same_statistics (compute_stop_prob args).
Proof.
  unfold compute_stop_prob.
  do 3 (apply frames_bind; [apply frames_gets|intros ?]).
  destruct (_ =? _)%nat; [apply frames_ret|].
  unfold evaluate_rule, quantile, noisy_memory_term.
  repeat statistics_step.
Qed.

Lemma get_action_same_statistics :
  frames (A:=A) (E:=E) same_statistics get_action.
Proof.
  unfold get_action.
  repeat first
    [ apply compute_stop_prob_same_statistics
    | apply frames_modify; now intros w
    | statistics_step ].
Qed.


Lemma call_act_and_learn_same_statistics end_episode :
  frames (A:=A) (E:=E) (G:=G) same_statistics (call_act_and_learn end_episode).
Proof.
  intros w x w'. unfold call_act_and_learn.
  destruct (act_and_learn _ _ _ _) as [[[a e] g] out].
  now intros [= _ <-].
Qed.

Lemma call_store_action_likelihood_same_statistics action :
  frames (A:=A) (E:=E) (G:=G) same_statistics
    (call_store_action_likelihood action).
Proof.
  intros w x w'. unfold call_store_action_likelihood.
  destruct (store_action_likelihood _ _ _) as [a e].
  now intros [= _ <-].
Qed.

Lemma call_take_action_and_learn_same_statistics action reward next path :
  frames (A:=A) (E:=E) (G:=G) same_statistics
    (call_take_action_and_learn action reward next path).
Proof.
  intros w x w'. unfold call_take_action_and_learn.
  destruct (take_action_and_learn _ _ _ _ _ _ _) as [[a e] g].
  now intros [= _ <-].
Qed.

Lemma call_env_step_same_statistics action :
  frames (A:=A) (E:=E) (G:=G) same_statistics (call_env_step action).
Proof.
  intros w x w'. unfold call_env_step.
  destruct (env_step _ _) as [e out].
  now intros [= _ <-].
Qed.

Ltac controller_step :=
  first
    [ apply get_action_same_statistics
    | apply call_act_and_learn_same_statistics
    | apply call_store_action_likelihood_same_statistics
    | apply call_take_action_and_learn_same_statistics
    | apply call_env_step_same_statistics
    | apply frames_modify; now intros ?
    | frames_step ].

Lemma likelihood_step_same_statistics acts rews path i acc :
  frames (A:=A) (E:=E) (G:=G) same_statistics
    (likelihood_step precision_epsilon acts rews path i acc).
Proof.
  unfold likelihood_step. destruct acc as [actions rewards].
  repeat controller_step.
Qed.

Lemma generative_loop_same_statistics fuel acc :
  frames (A:=A) (E:=E) (G:=G) same_statistics (generative_loop fuel acc).
Proof.
  revert acc. induction fuel as [|fuel IH]; intros [actions rewards]; simpl.
  - intros w x w' [=].
  - apply frames_bind; [apply get_action_same_statistics|intros choice].
    destruct (fst choice =? 0)%Z.
    + apply frames_bind; [apply call_env_step_same_statistics|].
      intros [[reward done] path].
      repeat controller_step.
    + apply frames_bind; [apply call_act_and_learn_same_statistics|].
      intros [[[action reward] done] path].
      destruct done; [apply frames_ret|apply IH].
Qed.

Lemma run_trial_same_statistics fuel cl p i td :
  frames (A:=A) (E:=E) (G:=G) same_statistics
    (run_trial precision_epsilon fuel cl p i td).
Proof.
  unfold run_trial, trial_data.
  repeat first
    [ apply generative_loop_same_statistics
    | apply frames_foldM; intros; apply likelihood_step_same_statistics
    | controller_step ].
Qed.

Lemma simulate_unfold fuel cl p (w : World A E G) :
  simulate precision_epsilon fuel cl (Some p) w =
    (trials_data <- foldM (run_trial precision_epsilon fuel cl p)
                      (seq 0 (num_trials (env w))) empty_trials_data ;;
     fun w' => Ok (run_finish trials_data w', w')) (run_start w).
Proof. reflexivity. Qed.

Lemma simulate_Ok fuel cl participant (w w' : World A E G) rec :
  simulate precision_epsilon fuel cl participant w = Ok (rec, w') ->
  exists p trials_data,
    participant = Some p /\
    foldM (run_trial precision_epsilon fuel cl p)
      (seq 0 (num_trials (env w))) empty_trials_data (run_start w)
    = Ok (trials_data, w') /\
    rec = run_finish trials_data w'.
Proof.
  destruct participant as [p|]; [|discriminate].
  rewrite simulate_unfold. intros Hrun.
  apply bind_Ok in Hrun as (td & w1 & Hloop & [= <- <-]).
  now exists p, td.
Qed.

Lemma run_trial_Ok fuel cl p i td (w w' : World A E G) td' :
  run_trial precision_epsilon fuel cl p i td w = Ok (td', w') ->
  exists weights actions rewards,
    td' = {| trials_w := trials_w td ++ [weights];
             trials_a := trials_a td ++ [actions];
             trials_r := trials_r td ++ [np_sum rewards];
             trials_loss := trials_loss td |}.
Proof.
  unfold run_trial. intros Hrun.
  apply bind_Ok in Hrun as (? & w1 & _ & Hrun).
  apply bind_Ok in Hrun as (n & w2 & _ & Hrun).
  apply bind_Ok in Hrun as (? & w3 & _ & Hrun).
  apply bind_Ok in Hrun as (weights & w4 & _ & Hrun).
  apply bind_Ok in Hrun as ([actions rewards] & w5 & _ & Hrun).
  apply bind_Ok in Hrun as (? & w6 & _ & [= <- _]).
  now exists weights, actions, rewards.
Qed.

Lemma trial_loop_lengths fuel cl p xs td (w w' : World A E G) td' :
  foldM (run_trial precision_epsilon fuel cl p) xs td w = Ok (td', w') ->
  length (trials_w td') = (length (trials_w td) + length xs)%nat /\
  length (trials_a td') = (length (trials_a td) + length xs)%nat /\
  length (trials_r td') = (length (trials_r td) + length xs)%nat.
Proof.
  revert td w. induction xs as [|x xs IH]; intros td w; simpl.
  - intros [= <- _]. lia.
  - intros Hrun. apply bind_Ok in Hrun as (td1 & w1 & Hone & Hrest).
    apply IH in Hrest as (Hw & Ha & Hr).
    apply run_trial_Ok in Hone as (weights & actions & rewards & ->).
    simpl in Hw, Ha, Hr. rewrite length_app in Hw, Ha, Hr. simpl in Hw, Ha, Hr.
    lia.
Qed.

Lemma trial_loop_same_statistics fuel cl p xs td :
  frames (A:=A) (E:=E) (G:=G) same_statistics
    (foldM (run_trial precision_epsilon fuel cl p) xs td).
Proof. apply frames_foldM. intros. apply run_trial_same_statistics. Qed.

(** However many trials a run completes, it never records a payoff: the
    statistics stay those of the reset. *)
Lemma simulate_never_records_payoffs fuel cl participant
    (w w' : World A E G) rec :
  simulate precision_epsilon fuel cl participant w = Ok (rec, w') ->
  length (trials_r rec) = num_trials (env w) /\
  payoffs (decision_agent w') = [] /\
  max_payoff (decision_agent w') = 0 /\
  avg_payoff (decision_agent w') = 0.
Proof.
  intros Hrun. apply simulate_Ok in Hrun as (p & td & -> & Hloop & ->).
  pose proof (trial_loop_lengths _ _ _ _ _ _ _ _ Hloop) as (_ & _ & Hr).
  apply trial_loop_same_statistics in Hloop as (Hp & Hm & Ha).
  simpl in *. rewrite length_seq in Hr. auto.
Qed.



(** One round of the generative loop whose sampled choice is [0] (stop):
    the local [actions] list grows by two entries, the appended [0] and the
    appended [continue_planning], which is [0] as well; [rewards] grows by
    the one terminal reward. *)
Lemma generative_loop_stop fuel actions rewards (w w1 : World A E G) p :
  get_action w = Ok ((0%Z, p), w1) ->
  generative_loop (S fuel) (actions, rewards) w =
    Ok ((actions ++ [0%Z; 0%Z], rewards ++ [stop_reward w1]), after_stop w1).
Proof.
  intros Hget. cbn [generative_loop]. unfold bind at 1. rewrite Hget.
  cbn [fst Z.eqb]. unfold bind at 1, call_env_step, stop_reward, after_stop.
  destruct (env_step (env w1) 0) as [e [[reward done] path]].
  unfold bind at 1, call_act_and_learn. cbn [with_env env actor_agent rng fst snd].
  destruct (act_and_learn true (actor_agent w1) e (rng w1)) as [[[a e'] g] out].
  unfold ret. cbn. now rewrite <- app_assoc.
Qed.

(** One round whose sampled choice is not [0] (continue): one action and one
    reward are appended. *)
Lemma generative_loop_continue fuel actions rewards (w w1 : World A E G) c p
    a e g action reward done path :
  get_action w = Ok ((c, p), w1) ->
  c <> 0%Z ->
  act_and_learn false (actor_agent w1) (env w1) (rng w1)
  = ((a, e, g), (action, reward, done, path)) ->
  generative_loop (S fuel) (actions, rewards) w =
    if done
    then Ok ((actions ++ [action], rewards ++ [reward]),
             with_collaborators a e g w1)
    else generative_loop fuel (actions ++ [action], rewards ++ [reward])
           (with_collaborators a e g w1).
Proof.
  intros Hget Hc Hact. cbn [generative_loop]. unfold bind at 1. rewrite Hget.
  cbn [fst]. apply Z.eqb_neq in Hc. rewrite Hc.
  unfold bind at 1, call_act_and_learn. rewrite Hact.
  cbn. now destruct done.
Qed.

(** One replayed step of likelihood mode. *)
Lemma likelihood_step_run acts rews path i actions rewards
    (w w1 : World A E G) action reward c p :
  acts !! i = Some action ->
  rews !! i = Some reward ->
  get_action w = Ok ((c, p), w1) ->
  let logged :=
    with_decision_agent
      (append_action_log_prob
         (ln (observed_choice_prob precision_epsilon action p))) w1 in
  let next_action :=
    if (i =? length acts - 1)%nat then None else acts !! S i in
  likelihood_step precision_epsilon acts rews path i (actions, rewards) w =
    Ok ((actions ++ [action], rewards ++ [reward]),
        if negb (no_term w1) || negb (action =? 0)%Z
        then after_learn action reward next_action path logged
        else logged).
Proof.
  intros Hact Hrew Hget logged next_action.
  unfold likelihood_step. rewrite Hact, Hrew.
  unfold bind at 1. rewrite Hget.
  unfold bind at 1, modify.
  unfold bind at 1, gets. cbn [snd no_term with_decision_agent].
  destruct (negb (no_term w1) || negb (action =? 0)%Z); [|reflexivity].
  unfold bind at 1 2, call_store_action_likelihood,
    call_take_action_and_learn, after_learn.
  fold next_action.
  change (with_decision_agent _ w1) with logged.
  destruct (store_action_likelihood action (actor_agent logged) (env logged))
    as [a e].
  cbn [with_collaborators actor_agent env rng fst snd].
  destruct (take_action_and_learn action reward next_action path a e
              (rng logged)) as [[a' e'] g'].
  reflexivity.
Qed.
End Controller.

(** ** Runs on the scripted collaborators *)

Module Runs.
Import Scripted.

Lemma agent_is_constructed rule ps :
  HierarchicalAgent_init (<["tau"%string := 0]> ps)
    {| attr_decision_rule := rule; attr_features := [] |}
  = Ok (agent rule ps).
Proof.
  unfold HierarchicalAgent_init. now rewrite lookup_insert_eq.
Qed.

Lemma get_action_scripted n draws hist logs actor :
  get_action
    (world_after "best_payoff" theta_zero
       (set_trial_num n (two_actions_env 8)) draws hist logs actor)
  = Ok ((Z.b2z (hd false draws), p_stop_8),
        world_after "best_payoff" theta_zero
          (set_trial_num n (two_actions_env 8)) (tl draws)
          (hist ++ [8]) logs actor).
Proof.
  erewrite get_action_best_payoff; [|reflexivity|cbn; lia|reflexivity].
  now destruct draws.
Qed.

Lemma generative_run :
  simulate precision_epsilon 2 false (Some participant)
    (world "best_payoff" theta_zero (two_actions_env 8) [true; false])
  = Ok ({| trials_w := [[]];
           trials_a := [[1%Z; 0%Z; 0%Z]];
           trials_r := [np_sum [0; 3]];
           trials_loss := None |},
        world_after "best_payoff" theta_zero
          (set_trial_num 1 (two_actions_env 8)) [] [8; 8] [] []).
Proof.
  rewrite simulate_unfold.
  cbn [world world_after env num_trials environment two_actions_env trials
       seq foldM].
  unfold bind at 1 2, run_trial.
  unfold bind at 1 2 3 4 5, modify, gets.
  erewrite generative_loop_continue;
    [|apply (get_action_scripted 0 [true; false] [] [] [])
     |discriminate|reflexivity].
  cbv beta iota.
  erewrite generative_loop_stop;
    [|apply (get_action_scripted 0 [false] [8] [] [])].
  reflexivity.
Qed.

Lemma likelihood_run n logs actor hist :
  let logs' :=
    logs ++ [ln (observed_choice_prob precision_epsilon 1 p_stop_8);
             ln (observed_choice_prob precision_epsilon 0 p_stop_8)] in
  simulate precision_epsilon 0 true (Some participant)
    (world_after "best_payoff" theta_zero
       (set_trial_num n (two_actions_env 8)) [] hist logs actor)
  = Ok ({| trials_w := [[]];
           trials_a := [[1%Z; 0%Z]];
           trials_r := [np_sum [0; 3]];
           trials_loss := final_loss logs' [0; 0] |},
        world_after "best_payoff" theta_zero
          (set_trial_num 1 (two_actions_env 8)) [] [8; 8] logs' [0; 0]).
Proof.
  intros logs'. rewrite simulate_unfold.
  cbn [world world_after env num_trials environment two_actions_env trials
       seq foldM set_trial_num].
  unfold bind at 1 2, run_trial.
  unfold bind at 1 2 3 4 5, modify, gets.
  unfold bind at 1 2 3, trial_data.
  cbn [participant data_actions data_rewards data_taken_paths lookup
       list_lookup ret length seq foldM].
  unfold bind at 1 2.
  erewrite likelihood_step_run;
    [|reflexivity|reflexivity|apply (get_action_scripted 0 [] [] logs [])].
  cbv beta iota.
  erewrite likelihood_step_run;
    [|reflexivity|reflexivity
     |apply (get_action_scripted 0 [] [8]
               (logs ++ [ln (observed_choice_prob precision_epsilon 1 p_stop_8)])
               [0])].
  replace logs'
    with ((logs ++ [ln (observed_choice_prob precision_epsilon 1 p_stop_8)])
          ++ [ln (observed_choice_prob precision_epsilon 0 p_stop_8)])
    by (subst logs'; now rewrite <- app_assoc).
  reflexivity.
Qed.

Lemma p_stop_8_range : 1 / 2 < p_stop_8 < 1.
Proof.
  unfold p_stop_8. split.
  - apply temp_sigmoid_positive_score. lra.
  - apply temp_sigmoid_range.
Qed.

Lemma observed_continue :
  observed_choice_prob precision_epsilon 1 p_stop_8 = 1 - p_stop_8.
Proof.
  pose proof p_stop_8_range. unfold observed_choice_prob.
  destruct (decide (1%Z <> 0%Z)); [|contradiction n; discriminate].
  destruct (decide (1 - p_stop_8 = 0)); [lra|reflexivity].
Qed.

Lemma observed_stop :
  observed_choice_prob precision_epsilon 0 p_stop_8 = p_stop_8.
Proof.
  pose proof p_stop_8_range. unfold observed_choice_prob.
  destruct (decide (0%Z <> 0%Z)); [contradiction|].
  destruct (decide (p_stop_8 = 0)); [lra|reflexivity].
Qed.

Lemma ln_negative x : 0 < x < 1 -> ln x < 0.
Proof. intros [Hlo Hhi]. rewrite <- ln_1. now apply ln_increasing. Qed.

(** C1, evaluated on one generative and one likelihood run of one trial
    each: both runs return, the record holds the trial's total reward
    [0 + 3], and the termination agent's [payoffs] is still empty and its
    [max_payoff] and [avg_payoff] still [0]: [simulate] has not called
    [update_payoffs]. *)
Theorem simulate_records_no_payoff :
  (exists rec w',
     simulate precision_epsilon 2 false (Some participant)
       (world "best_payoff" theta_zero (two_actions_env 8) [true; false])
     = Ok (rec, w') /\
     trials_r rec = [np_sum [0; 3]] /\
     payoffs (decision_agent w') = [] /\
     max_payoff (decision_agent w') = 0 /\
     avg_payoff (decision_agent w') = 0) /\
  (exists rec w',
     simulate precision_epsilon 0 true (Some participant)
       (world "best_payoff" theta_zero (two_actions_env 8) [])
     = Ok (rec, w') /\
     trials_r rec = [np_sum [0; 3]] /\
     payoffs (decision_agent w') = [] /\
     max_payoff (decision_agent w') = 0 /\
     avg_payoff (decision_agent w') = 0).
Proof.
  split.
  - eexists _, _. split; [apply generative_run|]. now cbn.
  - eexists _, _. split; [apply (likelihood_run 0 [] [] [])|]. now cbn.
Qed.

(** C4, evaluated on a generative trial with one click and then a sampled
    stop: the action sequence stored under ["a"] ends with two terminal
    actions, [[1; 0; 0]], for the two rewards [0] and [3]. *)
Theorem generative_stop_records_terminal_action_twice :
  exists rec w',
    simulate precision_epsilon 2 false (Some participant)
      (world "best_payoff" theta_zero (two_actions_env 8) [true; false])
    = Ok (rec, w') /\
    trials_a rec = [[1%Z; 0%Z; 0%Z]] /\
    trials_r rec = [np_sum [0; 3]].
Proof. eexists _, _. split; [apply generative_run|]. now cbn. Qed.

(** C9, evaluated on two likelihood runs of the same data on the same
    learner: at the start of the second run the reset leaves the two
    log-probabilities of the first run in place, so the agent is not the
    freshly constructed one; the second run ends with four of them and,
    with the same actions and rewards, reports a different (larger) loss. *)
Theorem second_run_inherits_log_probs :
  exists rec1 w1 rec2 w2 loss1 loss2,
    simulate precision_epsilon 0 true (Some participant)
      (world "best_payoff" theta_zero (two_actions_env 8) []) = Ok (rec1, w1) /\
    simulate precision_epsilon 0 true (Some participant) w1 = Ok (rec2, w2) /\
    length (action_log_probs (decision_agent (run_start w1))) = 2%nat /\
    decision_agent (run_start w1) <> agent "best_payoff" theta_zero /\
    length (action_log_probs (decision_agent w2)) = 4%nat /\
    trials_a rec1 = trials_a rec2 /\
    trials_r rec1 = trials_r rec2 /\
    trials_loss rec1 = Some loss1 /\
    trials_loss rec2 = Some loss2 /\
    loss1 < loss2.
Proof.
  eexists _, _, _, _, _, _.
  split; [apply (likelihood_run 0 [] [] [])|].
  split; [apply (likelihood_run 1 _ [0; 0] [8; 8])|].
  split; [reflexivity|]. split; [intros [=]|]. split; [reflexivity|].
  split; [reflexivity|]. split; [reflexivity|].
  split; [reflexivity|]. split; [reflexivity|].
  cbn. rewrite observed_continue, observed_stop.
  pose proof p_stop_8_range.
  pose proof (ln_negative p_stop_8). pose proof (ln_negative (1 - p_stop_8)).
  lra.
Qed.


Lemma gamma_density_at_zero : gamma_pdf 0 1 (/ 2) = 2.
Proof.
  cbn. unfold gamma_pdf_shape_one.
  destruct (Rlt_dec 0 0); [lra|].
  replace (- 0 / / 2) with 0 by (unfold Rdiv; ring).
  rewrite exp_0. lra.
Qed.

Lemma noisy_memory_first_decision args hist :
  max_expected_return args = 0 ->
  path_history args = [0] ->
  let w := world_after "noisy_memory_best_payoff" noisy_params
             (two_actions_env 0) [] hist [] [] in
  compute_stop_prob args w = Ok (- (1 / 2), w).
Proof.
  intros Hmer Hhist w.
  erewrite (noisy_memory_single_value args w 1 (/ 2) 0 0);
    [|reflexivity|cbn; lia|reflexivity|reflexivity|reflexivity|exact Hhist].
  f_equal. f_equal.
  change (IZR (present_trial_num (env w) - 0)) with 0.
  rewrite gamma_density_at_zero, Hmer.
  replace (0 - exp 0 * 0) with 0 by ring.
  rewrite temp_sigmoid_zero. lra.
Qed.

(** C5, evaluated on the first decision of a run under the
    [noisy_memory_best_payoff] rule with [alpha = 1], [beta = 1/2],
    [theta = 0] and a max expected return of [0]: the gamma density at time
    delta [0] is [2], the "probability of remembering" is [1 - 2], and
    [compute_stop_prob] returns [-1/2]; [get_action] then fails in
    [np.random.choice], which rejects the negative probability. *)
Theorem noisy_memory_stop_prob_negative :
  let w := world "noisy_memory_best_payoff" noisy_params (two_actions_env 0) [] in
  compute_stop_prob default_args w = Ok (- (1 / 2), w) /\
  get_action w = Raise (ValueError "probabilities are not non-negative").
Proof.
  intros w. split.
  - apply (noisy_memory_first_decision default_args []); reflexivity.
  - change (get_action w)
      with ((p_stop <- compute_stop_prob (get_action_args 0 [0]) ;;
             termination_choice <- np_random_choice p_stop ;;
             ret (termination_choice, p_stop))
              (world_after "noisy_memory_best_payoff" noisy_params
                 (two_actions_env 0) [] [0] [] [])).
    unfold bind at 1.
    rewrite (noisy_memory_first_decision (get_action_args 0 [0]) [0])
      by reflexivity.
    unfold bind at 1, np_random_choice.
    destruct (Rle_dec 0 (- (1 / 2))); [lra|reflexivity].
Qed.
(** C2, evaluated on the spec's own scenario: [best_payoff] with
    [theta = 0], [tau = 1], a recorded payoff of [8] (so the running maximum
    and mean are [8]) and a max expected return of [8].  Scored against the
    running maximum the stop probability would be [1/2]; [get_action] passes
    neither [max_payoff] nor [avg_payoff], both keep their default [0] in
    every call, and the decision is made with [temp_sigmoid 8], above
    [1/2]. *)
Theorem get_action_scores_against_default_payoffs :
  (forall m h,
     arg_max_payoff (get_action_args m h) = 0 /\
     arg_avg_payoff (get_action_args m h) = 0) /\
  let w := with_decision_agent (update_payoffs 8)
             (world "best_payoff" theta_zero (two_actions_env 8) []) in
  max_payoff (decision_agent w) = 8 /\
  avg_payoff (decision_agent w) = 8 /\
  (exists w',
     get_action w = Ok ((0%Z, temp_sigmoid (8 - exp 0 * 0) (exp 0)), w')) /\
  temp_sigmoid (8 - exp 0 * max_payoff (decision_agent w)) (exp 0) = 1 / 2 /\
  1 / 2 < temp_sigmoid (8 - exp 0 * 0) (exp 0).
Proof.
  split; [now intros m h|]. intros w.
  assert (max_payoff (decision_agent w) = 8) as Hmax.
  { cbn. destruct (Rgt_dec 8 0); lra. }
  split; [exact Hmax|].
  split; [cbn; unfold rows_mean; cbn; lra|].
  split.
  - eexists.
    erewrite get_action_best_payoff; [|reflexivity|cbn; lia|reflexivity].
    reflexivity.
  - split.
    + rewrite Hmax, exp_0. replace (8 - 1 * 8) with 0 by ring.
      apply temp_sigmoid_zero.
    + apply temp_sigmoid_positive_score. rewrite exp_0. lra.
Qed.

(** C7 at the [feature] rule, whose own evaluation would raise. *)
Lemma single_action_forces_stop_witness :
  length (get_available_actions
            (env (world "feature" ∅ single_action_env []))) = 1%nat /\
  compute_stop_prob default_args (world "feature" ∅ single_action_env [])
  = Ok (1, world "feature" ∅ single_action_env []).
Proof.
  split; [reflexivity|].
  apply (single_action_forces_stop default_args
           (world "feature" ∅ single_action_env [])).
  reflexivity.
Defined.

(** One [quantile] evaluation with the stored [theta] above [1]. *)
Lemma quantile_run :
  compute_stop_prob default_args
    (world "quantile" theta_high (two_actions_env 8) [])
  = Ok (temp_sigmoid 0 (exp 0),
        with_decision_agent
          (fun a => set_params (<["theta"%string := 1]> (params a)) a)
          (world "quantile" theta_high (two_actions_env 8) [])).
Proof.
  unfold compute_stop_prob, bind at 1 2 3, gets.
  cbn [world world_after env decision_agent agent_after decision_rule
       get_available_actions environment two_actions_env available length
       Nat.eqb tau].
  rewrite (quantile_rule_run _ _ _ (3 / 2)) by reflexivity.
  destruct (Rgt_dec (3 / 2) 1); [reflexivity|lra].
Qed.

(** C8 as stated fails: one [quantile] evaluation with a stored
    [theta = 3/2] returns and leaves [theta = 1] in the stored parameters. *)
Lemma quantile_overwrites_theta :
  exists p w',
    compute_stop_prob default_args
      (world "quantile" theta_high (two_actions_env 8) []) = Ok (p, w') /\
    params (decision_agent
              (world "quantile" theta_high (two_actions_env 8) []))
      !! "theta"%string = Some (3 / 2) /\
    params (decision_agent w') !! "theta"%string = Some 1 /\
    params (decision_agent w')
    <> params (decision_agent
                 (world "quantile" theta_high (two_actions_env 8) [])).
Proof.
  eexists _, _. split; [apply quantile_run|].
  split; [reflexivity|]. split; [apply lookup_insert_eq|].
  intros Heq. apply (f_equal (fun ps => ps !! "theta"%string)) in Heq.
  cbn [with_decision_agent decision_agent set_params params] in Heq.
  rewrite lookup_insert_eq in Heq.
  change (Some 1 = Some (3 / 2)) in Heq.
  injection Heq as Heq. lra.
Qed.

(** C8, amended, at that same call. *)
Lemma compute_stop_prob_params_witness :
  compute_stop_prob default_args
    (world "quantile" theta_high (two_actions_env 8) [])
  = Ok (temp_sigmoid 0 (exp 0),
        with_decision_agent
          (fun a => set_params (<["theta"%string := 1]> (params a)) a)
          (world "quantile" theta_high (two_actions_env 8) [])) /\
  params (decision_agent
            (with_decision_agent
               (fun a => set_params (<["theta"%string := 1]> (params a)) a)
               (world "quantile" theta_high (two_actions_env 8) [])))
  = <["theta"%string := 1]>
      (params (decision_agent
                 (world "quantile" theta_high (two_actions_env 8) []))).
Proof.
  split; [apply quantile_run|].
  destruct (compute_stop_prob_params default_args _ _ _ quantile_run)
    as (_ & _ & Htheta).
  destruct (Htheta (3 / 2) eq_refl) as (_ & Hhigh & _).
  apply Hhigh; [reflexivity|cbn; lia|lra].
Defined.



(** C10 at a [quantile] decision on an empty history. *)
Lemma get_action_history_nonempty_witness :
  decision_rule
    (decision_agent (world "quantile" theta_high (two_actions_env 8) []))
  = "quantile"%string /\
  get_action (world "quantile" theta_high (two_actions_env 8) [])
  <> Raise IndexError.
Proof.
  split; [reflexivity|].
  pose proof (get_action_history_nonempty
                (world "quantile" theta_high (two_actions_env 8) []))
    as Hstep.
  cbv zeta in Hstep. destruct Hstep as (_ & _ & _ & Hquantile).
  apply Hquantile. reflexivity.
Defined.

End Runs.


(** ** More on the running statistics *)

Lemma fold_left_Rmax_upper (rs : list R) (m r : R) :
  r ∈ rs -> r <= fold_left Rmax rs m.
Proof.
  revert m. induction rs as [|x rs IH]; intros m Hin.
  - now apply elem_of_nil in Hin.
  - apply elem_of_cons in Hin as [->|Hin]; simpl.
    + eapply Rle_trans; [apply (Rmax_r m x)|apply fold_left_Rmax_ge].
    + now apply IH.
Qed.

Lemma fold_left_Rmax_attained (rs : list R) (m : R) :
  fold_left Rmax rs m = m \/ fold_left Rmax rs m ∈ rs.
Proof.
  revert m. induction rs as [|x rs IH]; intros m; simpl; [now left|].
  destruct (IH (Rmax m x)) as [Heq|Hin].
  - rewrite Heq. unfold Rmax. destruct (Rle_dec m x).
    + right. apply elem_of_cons; now left.
    + now left.
  - right. apply elem_of_cons; now right.
Qed.

(** X1: After a reset ([init_model_params]) followed by any sequence of
    [update_payoffs] calls, the stored [max_payoff] is never negative, is at
    least every recorded payoff, and is either the initial [0] or one of the
    recorded payoffs. *)
Theorem max_payoff_bounds (rs : list R) (a : HierarchicalAgent) :
  let a' := record_payoffs rs (init_model_params a) in
  0 <= max_payoff a' /\
  (forall r, r ∈ rs -> r <= max_payoff a') /\
  (max_payoff a' = 0 \/ max_payoff a' ∈ rs).
Proof.
  intros a'. subst a'. rewrite record_payoffs_max.
  cbn [max_payoff init_model_params].
  split; [apply fold_left_Rmax_ge|].
  split; [intros r; apply fold_left_Rmax_upper|].
  apply fold_left_Rmax_attained.
Qed.

Lemma py_max_upper (rs : list R) (m : R) :
  py_max rs = Some m -> m ∈ rs /\ forall r, r ∈ rs -> r <= m.
Proof.
  revert m. induction rs as [|x rs IH]; intros m; simpl; [discriminate|].
  destruct (py_max rs) as [m'|] eqn:Hmax.
  - destruct (IH m' eq_refl) as [Hin Hup]. intros [= <-].
    destruct (Rgt_dec x m') as [Hgt|Hle].
    + split; [apply elem_of_cons; now left|].
      intros r [->|Hr]%elem_of_cons; [lra|]. apply Hup in Hr. lra.
    + split; [apply elem_of_cons; now right|].
      intros r [->|Hr]%elem_of_cons; [lra|]. now apply Hup.
  - intros [= <-].
    destruct rs; [|simpl in Hmax; destruct (py_max rs); discriminate].
    split; [apply elem_of_cons; now left|].
    intros r [->|Hr]%elem_of_cons; [lra|]. now apply elem_of_nil in Hr.
Qed.

(** X2: When the largest recorded payoff is not negative, the
    [max_payoff] stored after a reset and the [update_payoffs] calls is
    exactly the maximum of the recorded payoffs (Python's [max]). *)
Theorem max_payoff_is_max_of_nonnegative (rs : list R) (m : R)
    (a : HierarchicalAgent) :
  py_max rs = Some m ->
  0 <= m ->
  max_payoff (record_payoffs rs (init_model_params a)) = m.
Proof.
  intros Hmax Hm. apply py_max_upper in Hmax as [Hin Hup].
  rewrite record_payoffs_max. cbn [max_payoff init_model_params].
  pose proof (fold_left_Rmax_upper rs 0 m Hin) as Hub.
  destruct (fold_left_Rmax_attained rs 0) as [Hzero|Hatt].
  - rewrite Hzero in *. lra.
  - apply Hup in Hatt. lra.
Qed.

(** X3: [update_payoffs] only appends: recording more payoffs keeps
    the earlier ones as a prefix of [payoffs], and the stored [max_payoff]
    never decreases. *)
Theorem payoffs_grow_and_max_never_decreases (rs more : list R)
    (a : HierarchicalAgent) :
  payoffs (record_payoffs (rs ++ more) a)
  = payoffs (record_payoffs rs a) ++ more /\
  max_payoff (record_payoffs rs a)
  <= max_payoff (record_payoffs (rs ++ more) a).
Proof.
  split.
  - rewrite !record_payoffs_payoffs. now rewrite app_assoc.
  - rewrite !record_payoffs_max, fold_left_app. apply fold_left_Rmax_ge.
Qed.

(** X4: [init_model_params] forgets everything that
    [update_history] and [update_payoffs] stored: resetting after any
    sequence of such calls gives the same agent as resetting at once, and
    resetting twice is the same as resetting once. *)
Theorem reset_forgets_statistics (rs hs : list R) (a : HierarchicalAgent) :
  init_model_params
    (record_payoffs rs (fold_left (fun b h => update_history h b) hs a))
  = init_model_params a /\
  init_model_params (init_model_params a) = init_model_params a.
Proof.
  split; [|reflexivity].
  revert a. induction hs as [|h hs IH]; intros a; simpl.
  - revert a. induction rs as [|r rs IHr]; intros a; [reflexivity|].
    change (record_payoffs (r :: rs) a)
      with (record_payoffs rs (update_payoffs r a)).
    now rewrite IHr.
  - now rewrite IH.
Qed.


Section EvaluatorEdges.
Context {A E G : Type}.
Context `{Environment E, RandomSource G, NumericLib, ExecutionAgent A E G}.

Lemma compute_stop_prob_many_actions args (w : World A E G) :
  length (get_available_actions (env w)) <> 1%nat ->
  compute_stop_prob args w
  = evaluate_rule args (decision_rule (decision_agent w))
      (tau (decision_agent w)) w.
Proof.
  intros Hlen. unfold compute_stop_prob, bind, gets.
  apply Nat.eqb_neq in Hlen. now rewrite Hlen.
Qed.

(** X5: With more than one action available (or none), a decision
    rule that is none of the names of the [elif] chain leaves [p_stop]
    unassigned, and [compute_stop_prob] raises [UnboundLocalError] at its
    [return]. *)
Theorem unknown_rule_raises args (w : World A E G) :
  decision_rule (decision_agent w) ∉ known_rules ->
  length (get_available_actions (env w)) <> 1%nat ->
  compute_stop_prob args w = Raise (UnboundLocalError "p_stop").
Proof.
  intros Hrule Hlen. rewrite compute_stop_prob_many_actions by exact Hlen.
  unfold evaluate_rule.
  repeat match goal with
         | |- (if String.eqb ?a ?b then _ else _) _ = _ =>
             destruct (String.eqb_spec a b) as [Heq|_];
             [exfalso; apply Hrule; rewrite Heq; unfold known_rules;
              set_solver|]
         end.
  reflexivity.
Qed.

(** X6: The ["feature"] rule cannot be evaluated: unless exactly
    one action is available, [compute_stop_prob] raises [AttributeError]
    once the environment has returned the feature values, since the agent
    has no attribute [termination_features]. *)
Theorem feature_rule_raises args (w : World A E G) :
  decision_rule (decision_agent w) = "feature"%string ->
  length (get_available_actions (env w)) <> 1%nat ->
  compute_stop_prob args w = Raise (AttributeError "termination_features").
Proof.
  intros Hrule Hlen. rewrite compute_stop_prob_many_actions by exact Hlen.
  now rewrite Hrule.
Qed.

Lemma get_param_missing {X} key (k : R -> M A E G X) (w : World A E G) :
  params (decision_agent w) !! key = None ->
  bind (get_param key) k w = Raise (KeyError key).
Proof. intros Hkey. unfold bind, get_param. now rewrite Hkey. Qed.

(** X7: For the rules that start by reading
    [decision_params["theta"]], a parameter dictionary without the key
    ["theta"] makes [compute_stop_prob] raise [KeyError("theta")], unless
    exactly one action is available. *)
Theorem missing_theta_raises args (w : World A E G) :
  decision_rule (decision_agent w) ∈ theta_rules ->
  params (decision_agent w) !! "theta"%string = None ->
  length (get_available_actions (env w)) <> 1%nat ->
  compute_stop_prob args w = Raise (KeyError "theta").
Proof.
  intros Hrule Htheta Hlen.
  rewrite compute_stop_prob_many_actions by exact Hlen.
  unfold theta_rules in Hrule.
  repeat (apply elem_of_cons in Hrule as [->|Hrule];
          [unfold evaluate_rule; cbn [String.eqb Ascii.eqb Bool.eqb];
           now apply get_param_missing|]).
  now apply elem_of_nil in Hrule.
Qed.

Lemma get_param_pure key : frames (A:=A) (E:=E) (G:=G) eq (get_param key).
Proof.
  intros w x w'. unfold get_param.
  destruct (params (decision_agent w) !! key); [|discriminate].
  now intros [= _ <-].
Qed.

(** X8: Under every rule other than ["quantile"] and
    ["confidence_bound"], a call of [compute_stop_prob] that returns changes
    nothing: not the agents, not the environment, not the random source. *)
Theorem compute_stop_prob_pure args (w w' : World A E G) p :
  decision_rule (decision_agent w) <> "quantile"%string ->
  decision_rule (decision_agent w) <> "confidence_bound"%string ->
  compute_stop_prob args w = Ok (p, w') ->
  w' = w.
Proof.
  intros Hq Hc. unfold compute_stop_prob, bind at 1 2 3, gets.
  destruct (_ =? _)%nat; [now intros [= _ <-]|].
  intros Hrun. symmetry. revert w p w' Hrun Hq Hc.
  intros w. generalize (tau (decision_agent w)) as t.
  generalize (decision_rule (decision_agent w)) as rule.
  intros rule t p w' Hrun Hq Hc. revert w p w' Hrun.
  change (frames (A:=A) (E:=E) (G:=G) eq (evaluate_rule args rule t)).
  unfold evaluate_rule.
  repeat match goal with
         | |- frames _ (if String.eqb ?a ?b then _ else _) =>
             destruct (String.eqb_spec a b)
         end; try contradiction;
    repeat first
      [ apply get_param_pure
      | apply frames_foldM; intros; unfold noisy_memory_term
      | frames_step ].
Qed.


Lemma quantile_Ok xs q (w w' : World A E G) x :
  quantile xs q w = Ok (x, w') -> w' = w.
Proof. unfold quantile. destruct xs; [discriminate|]. now intros [= _ <-]. Qed.

Lemma compute_stop_prob_keeps_clamped args (w w' : World A E G) p theta :
  params (decision_agent w) !! "theta"%string = Some theta ->
  0 <= theta <= 1 ->
  compute_stop_prob args w = Ok (p, w') ->
  params (decision_agent w') = params (decision_agent w).
Proof.
  intros Htheta Hrange Hrun.
  destruct (decide (decision_rule (decision_agent w) = "quantile"%string))
    as [Hrule|Hrule].
  2: { apply compute_stop_prob_frames in Hrun as (_ & -> & _);
         [reflexivity|exact Hrule]. }
  destruct (decide (length (get_available_actions (env w)) = 1%nat))
    as [Hlen|Hlen].
  { rewrite compute_stop_prob_single_action in Hrun by exact Hlen.
    now injection Hrun as _ <-. }
  rewrite compute_stop_prob_many_actions in Hrun by exact Hlen.
  rewrite Hrule, (quantile_rule_run _ _ _ theta) in Hrun by exact Htheta.
  destruct (Rgt_dec theta 1); [lra|]. destruct (Rlt_dec theta 0); [lra|].
  apply bind_Ok in Hrun as (q & w1 & Hq & [= _ <-]).
  now apply quantile_Ok in Hq as ->.
Qed.

(** X9: After one evaluation of the ["quantile"] rule the stored
    ["theta"] lies in [[0, 1]], and from then on no call of
    [compute_stop_prob] changes the stored parameters any more. *)
Theorem quantile_clamp_invariant args (w w' : World A E G) p :
  decision_rule (decision_agent w) = "quantile"%string ->
  length (get_available_actions (env w)) <> 1%nat ->
  compute_stop_prob args w = Ok (p, w') ->
  (exists theta,
     params (decision_agent w') !! "theta"%string = Some theta /\
     0 <= theta <= 1) /\
  (forall args2 p2 w2,
     compute_stop_prob args2 w' = Ok (p2, w2) ->
     params (decision_agent w2) = params (decision_agent w')).
Proof.
  intros Hrule Hlen Hrun.
  assert (exists theta,
            params (decision_agent w') !! "theta"%string = Some theta /\
            0 <= theta <= 1) as Hclamped.
  { rewrite compute_stop_prob_many_actions in Hrun by exact Hlen.
    rewrite Hrule in Hrun.
    destruct (params (decision_agent w) !! "theta"%string) as [theta|]
      eqn:Htheta.
    2: { unfold evaluate_rule in Hrun.
         cbn [String.eqb Ascii.eqb Bool.eqb] in Hrun.
         rewrite get_param_missing in Hrun by exact Htheta. discriminate. }
    rewrite (quantile_rule_run _ _ _ theta) in Hrun by exact Htheta.
    destruct (Rgt_dec theta 1); [|destruct (Rlt_dec theta 0)];
      apply bind_Ok in Hrun as (q & w1 & Hq & [= _ <-]);
      apply quantile_Ok in Hq as ->.
    - exists 1. split; [apply lookup_insert_eq|lra].
    - exists 0. split; [apply lookup_insert_eq|lra].
    - exists theta. split; [exact Htheta|lra]. }
  split; [exact Hclamped|].
  intros args2 p2 w2 Hrun2. destruct Hclamped as (theta & Htheta & Hrange).
  now apply (compute_stop_prob_keeps_clamped args2 w' w2 p2 theta).
Qed.

(** X10: Called with an empty [path_history], the
    ["noisy_memory_best_payoff"] rule runs its loop over no reward and
    returns the initial [p_stop = 0], without reading ["theta"]. *)
Theorem noisy_memory_empty_history args (w : World A E G) alpha beta :
  decision_rule (decision_agent w) = "noisy_memory_best_payoff"%string ->
  length (get_available_actions (env w)) <> 1%nat ->
  params (decision_agent w) !! "alpha"%string = Some alpha ->
  params (decision_agent w) !! "beta"%string = Some beta ->
  path_history args = [] ->
  compute_stop_prob args w = Ok (0, w).
Proof.
  intros Hrule Hlen Halpha Hbeta Hhist.
  rewrite compute_stop_prob_many_actions by exact Hlen. rewrite Hrule.
  unfold evaluate_rule. cbn [String.eqb Ascii.eqb Bool.eqb].
  rewrite (get_param_run _ alpha) by exact Halpha.
  rewrite (get_param_run _ beta) by exact Hbeta.
  unfold bind at 1, gets. now rewrite Hhist.
Qed.

(** X11: Under the ["confidence_bound"] rule, with other than
    exactly one action available and ["threshold_mean"] stored where the
    first trial reads it, a negative ["threshold_var"] gives
    [np.random.normal] a negative scale in every trial, and the call raises
    [ValueError] instead of returning a probability. *)
Theorem confidence_bound_negative_spread args (w : World A E G) spread :
  decision_rule (decision_agent w) = "confidence_bound"%string ->
  length (get_available_actions (env w)) <> 1%nat ->
  (0 <= present_trial_num (env w))%Z ->
  (present_trial_num (env w) = 0%Z ->
   is_Some (params (decision_agent w) !! "threshold_mean"%string)) ->
  params (decision_agent w) !! "threshold_var"%string = Some spread ->
  spread < 0 ->
  compute_stop_prob args w = Raise (ValueError "scale < 0").
Proof.
  intros Hrule Hlen Htrial Hmean Hvar Hneg.
  rewrite compute_stop_prob_many_actions by exact Hlen. rewrite Hrule.
  unfold evaluate_rule. cbn [String.eqb Ascii.eqb Bool.eqb].
  unfold bind at 1, gets.
  assert (forall mean,
            (threshold_var <- get_param "threshold_var" ;;
             sample <- np_random_normal mean
                         (threshold_var
                          / sqrt (IZR (present_trial_num (env w) + 1))) ;;
             ret (temp_sigmoid (max_expected_return args - sample)
                    (tau (decision_agent w)))) w
            = Raise (ValueError "scale < 0")) as Htail.
  { intros mean. rewrite (get_param_run _ spread) by exact Hvar.
    unfold bind at 1, np_random_normal.
    assert (0 < sqrt (IZR (present_trial_num (env w) + 1))) as Hsqrt.
    { apply sqrt_lt_R0. apply IZR_lt. lia. }
    destruct (Rlt_dec _ 0) as [_|Hge]; [reflexivity|].
    exfalso. apply Hge. apply Rmult_lt_reg_r with (1 := Hsqrt).
    unfold Rdiv. rewrite Rmult_assoc, Rinv_l by lra. lra. }
  destruct (present_trial_num (env w) =? 0)%Z eqn:Hzero.
  - apply Z.eqb_eq in Hzero. destruct (Hmean Hzero) as [mean Hm].
    rewrite (get_param_run _ mean) by exact Hm. apply Htail.
  - unfold bind at 1, gets. apply Htail.
Qed.

End EvaluatorEdges.


#[global] Instance decision_frame_refl {A E G} :
  Reflexive (@decision_frame A E G).
Proof. intros w. unfold decision_frame. tauto. Qed.

#[global] Instance decision_frame_trans {A E G} :
  Transitive (@decision_frame A E G).
Proof.
  intros w1 w2 w3 H12 H23. unfold decision_frame in *.
  repeat match goal with H : _ /\ _ |- _ => destruct H end.
  repeat split; congruence.
Qed.

#[global] Instance evaluator_frame_refl {A E G} :
  Reflexive (@evaluator_frame A E G).
Proof. intros w. split; reflexivity. Qed.

#[global] Instance evaluator_frame_trans {A E G} :
  Transitive (@evaluator_frame A E G).
Proof.
  intros w1 w2 w3 [F12 H12] [F23 H23].
  split; [now transitivity w2|congruence].
Qed.

Section DecisionEffects.
Context {A E G : Type}.
Context `{Environment E, RandomSource G, NumericLib, ExecutionAgent A E G}.

Lemma get_param_evaluator_frame key :
  frames (A:=A) (E:=E) (G:=G) evaluator_frame (get_param key).
Proof.
  intros w x w'. unfold get_param.
  destruct (params (decision_agent w) !! key); [|discriminate].
  intros [= _ <-]. reflexivity.
Qed.

Lemma set_param_evaluator_frame key v :
  frames (A:=A) (E:=E) (G:=G) evaluator_frame (set_param key v).
Proof.
  apply frames_modify. intros w. unfold evaluator_frame, decision_frame.
  cbn. tauto.
Qed.

Lemma np_random_normal_evaluator_frame loc scale :
  frames (A:=A) (E:=E) evaluator_frame (np_random_normal loc scale).
Proof.
  intros w x w'. unfold np_random_normal.
  destruct (Rlt_dec scale 0); [discriminate|].
  destruct (random_normal (rng w) loc scale) as [g y].
  intros [= _ <-]. unfold evaluator_frame, decision_frame. cbn. tauto.
Qed.

Lemma np_random_choice_Ok p (w w' : World A E G) c :
  np_random_choice p w = Ok (c, w') ->
  0 <= p <= 1 /\ (c = 0%Z \/ c = 1%Z) /\ evaluator_frame w w'.
Proof.
  unfold np_random_choice.
  destruct (Rle_dec 0 p); [|discriminate].
  destruct (Rle_dec 0 (1 - p)); [|discriminate].
  destruct (random_choice (rng w) p) as [g b].
  intros [= <- <-]. split; [lra|]. split; [destruct b; auto|].
  unfold evaluator_frame, decision_frame. cbn. tauto.
Qed.

Lemma compute_stop_prob_evaluator_frame args :
  frames (A:=A) (E:=E) evaluator_frame (compute_stop_prob args).
Proof.
  unfold compute_stop_prob.
  do 3 (apply frames_bind; [apply frames_gets|intros ?]).
  destruct (_ =? _)%nat; [apply frames_ret|].
  unfold evaluate_rule, quantile, noisy_memory_term.
  repeat first
    [ apply get_param_evaluator_frame
    | apply set_param_evaluator_frame
    | apply np_random_normal_evaluator_frame
    | apply frames_foldM; intros
    | frames_step ].
Qed.

(** What a returning decision step did. *)
Lemma get_action_Ok (w w' : World A E G) c p :
  get_action w = Ok ((c, p), w') ->
  0 <= p <= 1 /\
  (c = 0%Z \/ c = 1%Z) /\
  history (decision_agent w')
  = history (decision_agent w) ++ [calculate_max_expected_return (env w)] /\
  decision_frame w w'.
Proof.
  rewrite get_action_unfold. cbv zeta. intros Hrun.
  apply bind_Ok in Hrun as (p' & w1 & Hstop & Hrun).
  apply bind_Ok in Hrun as (c' & w2 & Hchoice & [= -> -> <-]).
  apply compute_stop_prob_evaluator_frame in Hstop as [Hf1 Hh1].
  apply np_random_choice_Ok in Hchoice as (Hp & Hc & Hf2 & Hh2).
  split; [exact Hp|]. split; [exact Hc|].
  split; [now rewrite Hh2, Hh1|].
  transitivity w1; [|exact Hf2].
  etransitivity; [|exact Hf1].
  unfold decision_frame. cbn. tauto.
Qed.

(** X13: A call of [get_action] that returns gives a choice that is
    [0] or [1] and a stop probability in [[0, 1]]; it appends exactly the
    current maximum expected return to [history], and it touches neither the
    actor agent, the environment, the payoff statistics nor the logged
    log-probabilities. *)
Theorem get_action_returns_valid_decision (w w' : World A E G) c p :
  get_action w = Ok ((c, p), w') ->
  0 <= p <= 1 /\
  (c = 0%Z \/ c = 1%Z) /\
  history (decision_agent w')
  = history (decision_agent w) ++ [calculate_max_expected_return (env w)] /\
  decision_frame w w'.
Proof. apply get_action_Ok. Qed.

(** X14: When exactly one action is available, [get_action] reports
    the stop probability [1] under every decision rule and with any
    parameters, and draws its choice with the weights [[1, 0]]; the maximum
    expected return is still appended to [history]. *)
Theorem get_action_single_action (w : World A E G) :
  length (get_available_actions (env w)) = 1%nat ->
  let mer := calculate_max_expected_return (env w) in
  let draw := random_choice (rng w) 1 in
  get_action w
  = Ok ((Z.b2z (snd draw), 1),
        with_rng (fst draw) (with_decision_agent (update_history mer) w)).
Proof.
  intros Hlen mer draw. rewrite get_action_unfold. fold mer.
  unfold bind at 1.
  rewrite compute_stop_prob_single_action by exact Hlen.
  unfold bind at 1. rewrite np_random_choice_run by lra.
  reflexivity.
Qed.

End DecisionEffects.


#[global] Instance same_log_probs_refl {A E G} :
  Reflexive (@same_log_probs A E G).
Proof. now intros w. Qed.

#[global] Instance same_log_probs_trans {A E G} :
  Transitive (@same_log_probs A E G).
Proof. intros w1 w2 w3 H12 H23. unfold same_log_probs in *. congruence. Qed.

Section ControllerEffects.
Context {A E G : Type}.
Context `{Environment E, RandomSource G, NumericLib, ExecutionAgent A E G}.
Variable precision_epsilon : R.

(** X15: A run of [simulate] that returns holds one entry per trial
    under each of ["w"], ["a"] and ["r"]: each list has [env.num_trials]
    entries, in both modes. *)
Theorem simulate_record_lengths fuel cl participant (w w' : World A E G) rec :
  simulate precision_epsilon fuel cl participant w = Ok (rec, w') ->
  length (trials_w rec) = num_trials (env w) /\
  length (trials_a rec) = num_trials (env w) /\
  length (trials_r rec) = num_trials (env w).
Proof.
  intros Hrun. apply simulate_Ok in Hrun as (p & td & -> & Hloop & ->).
  apply trial_loop_lengths in Hloop as (Hw & Ha & Hr).
  cbn in *. rewrite length_seq in *. auto.
Qed.

(** X21: With a non-zero [precision_epsilon], the probability whose
    logarithm likelihood mode logs is never [0]: it is [p_stop] for the
    action [0] and [1 - p_stop] for every other action, and
    [precision_epsilon] exactly when that value is [0]. *)
Theorem observed_choice_prob_floor (action : Z) (p_stop : R) :
  precision_epsilon <> 0 ->
  observed_choice_prob precision_epsilon action p_stop <> 0 /\
  (action = 0%Z -> p_stop <> 0 ->
   observed_choice_prob precision_epsilon action p_stop = p_stop) /\
  (action <> 0%Z -> 1 - p_stop <> 0 ->
   observed_choice_prob precision_epsilon action p_stop = 1 - p_stop) /\
  (action = 0%Z -> p_stop = 0 ->
   observed_choice_prob precision_epsilon action p_stop = precision_epsilon) /\
  (action <> 0%Z -> 1 - p_stop = 0 ->
   observed_choice_prob precision_epsilon action p_stop = precision_epsilon).
Proof.
  intros Heps. unfold observed_choice_prob.
  destruct (decide (action <> 0%Z)) as [Ha|Ha];
    [destruct (decide (1 - p_stop = 0))|destruct (decide (p_stop = 0))];
    repeat split; intros; try congruence; try contradiction;
    try (exfalso; apply Ha; congruence).
  all: try (apply dec_stable in Ha; congruence).
Qed.

Lemma call_act_and_learn_same_log_probs end_episode :
  frames (A:=A) (E:=E) (G:=G) same_log_probs (call_act_and_learn end_episode).
Proof.
  intros w x w'. unfold call_act_and_learn.
  destruct (act_and_learn _ _ _ _) as [[[a e] g] out].
  now intros [= _ <-].
Qed.

Lemma call_env_step_same_log_probs action :
  frames (A:=A) (E:=E) (G:=G) same_log_probs (call_env_step action).
Proof.
  intros w x w'. unfold call_env_step.
  destruct (env_step _ _) as [e out].
  now intros [= _ <-].
Qed.

Lemma get_action_same_log_probs :
  frames (A:=A) (E:=E) (G:=G) same_log_probs get_action.
Proof.
  intros w [c p] w' Hrun. apply get_action_Ok in Hrun as (_ & _ & _ & Hf).
  unfold decision_frame in Hf. unfold same_log_probs. tauto.
Qed.

Lemma generative_loop_same_log_probs fuel acc :
  frames (A:=A) (E:=E) (G:=G) same_log_probs (generative_loop fuel acc).
Proof.
  revert acc. induction fuel as [|fuel IH]; intros [actions rewards]; simpl.
  - intros w x w' [=].
  - apply frames_bind; [apply get_action_same_log_probs|intros choice].
    destruct (fst choice =? 0)%Z.
    + apply frames_bind; [apply call_env_step_same_log_probs|].
      intros [[reward done] path].
      apply frames_bind; [apply call_act_and_learn_same_log_probs|intros ?].
      apply frames_ret.
    + apply frames_bind; [apply call_act_and_learn_same_log_probs|].
      intros [[[action reward] done] path].
      destruct done; [apply frames_ret|apply IH].
Qed.

Lemma generative_trial_same_log_probs fuel p i td :
  frames (A:=A) (E:=E) (G:=G) same_log_probs
    (run_trial precision_epsilon fuel false p i td).
Proof.
  unfold run_trial.
  repeat first
    [ apply generative_loop_same_log_probs
    | apply frames_modify; now intros ?
    | frames_step ].
Qed.

(** X19: A generative run ([compute_likelihood=False]) that returns
    leaves the decision agent's [action_log_probs] exactly as they were
    before the run. *)
Theorem generative_run_logs_nothing fuel participant (w w' : World A E G) rec :
  simulate precision_epsilon fuel false participant w = Ok (rec, w') ->
  action_log_probs (decision_agent w') = action_log_probs (decision_agent w).
Proof.
  intros Hrun. apply simulate_Ok in Hrun as (p & td & -> & Hloop & ->).
  apply (frames_foldM (rel:=same_log_probs)) in Hloop; [exact Hloop|].
  intros. apply generative_trial_same_log_probs.
Qed.

End ControllerEffects.


Section TrialShapes.
Context {A E G : Type}.
Context `{Environment E, RandomSource G, NumericLib, ExecutionAgent A E G}.
Variable precision_epsilon : R.

(** X20: One trial of the generative loop that ends has appended at
    least one reward, and either as many actions as rewards (the actor ended
    the trial) or one action more than rewards, the last two actions being
    [0] and [0] (the decision agent stopped). *)
Theorem generative_trial_shape fuel actions rewards (w w' : World A E G)
    actions' rewards' :
  generative_loop fuel (actions, rewards) w = Ok ((actions', rewards'), w') ->
  exists new_actions new_rewards,
    actions' = actions ++ new_actions /\
    rewards' = rewards ++ new_rewards /\
    new_rewards <> [] /\
    (length new_actions = length new_rewards \/
     exists clicks,
       new_actions = clicks ++ [0%Z; 0%Z] /\
       length new_rewards = S (length clicks)).
Proof.
  revert actions rewards w.
  induction fuel as [|fuel IH]; intros actions rewards w; [discriminate|].
  cbn [generative_loop]. intros Hrun.
  apply bind_Ok in Hrun as ([c p] & w1 & Hget & Hrun). cbn [fst] in Hrun.
  destruct (c =? 0)%Z eqn:Hc.
  - apply Z.eqb_eq in Hc as ->.
    apply bind_Ok in Hrun as ([[reward done] path] & w2 & _ & Hrun).
    apply bind_Ok in Hrun as (out & w3 & _ & [= <- <- _]).
    exists [0%Z; 0%Z], [reward]. rewrite <- app_assoc.
    split; [reflexivity|]. split; [reflexivity|]. split; [discriminate|].
    right. now exists [].
  - apply bind_Ok in Hrun as ([[[action reward] done] path] & w2 & _ & Hrun).
    destruct done.
    + injection Hrun as <- <- _. exists [action], [reward].
      split; [reflexivity|]. split; [reflexivity|]. split; [discriminate|].
      now left.
    + apply IH in Hrun as (na & nr & -> & -> & _ & Hshape).
      exists (action :: na), (reward :: nr). rewrite <- !app_assoc.
      split; [reflexivity|]. split; [reflexivity|]. split; [discriminate|].
      destruct Hshape as [Hlen|(clicks & -> & Hlen)].
      * left. cbn. now rewrite Hlen.
      * right. exists (action :: clicks). split; [reflexivity|].
        cbn. now rewrite Hlen.
Qed.

(** What one returning replayed step did. *)
Lemma likelihood_step_Ok acts rews path i actions rewards
    (w w' : World A E G) actions' rewards' :
  likelihood_step precision_epsilon acts rews path i (actions, rewards) w
  = Ok ((actions', rewards'), w') ->
  exists action reward c p w1,
    acts !! i = Some action /\
    rews !! i = Some reward /\
    get_action w = Ok ((c, p), w1) /\
    actions' = actions ++ [action] /\
    rewards' = rewards ++ [reward] /\
    decision_agent w'
    = append_action_log_prob
        (ln (observed_choice_prob precision_epsilon action p))
        (decision_agent w1) /\
    (negb (no_term w) || negb (action =? 0)%Z = false ->
     actor_agent w' = actor_agent w /\ env w' = env w).
Proof.
  intros Hrun.
  destruct (acts !! i) as [action|] eqn:Hact;
    [|unfold likelihood_step in Hrun; rewrite Hact in Hrun; discriminate].
  destruct (rews !! i) as [reward|] eqn:Hrew;
    [|unfold likelihood_step in Hrun; rewrite Hact, Hrew in Hrun;
      discriminate].
  destruct (get_action w) as [[[c p] w1]|e|] eqn:Hget.
  2,3: unfold likelihood_step in Hrun; rewrite Hact, Hrew in Hrun;
       unfold bind at 1 in Hrun; rewrite Hget in Hrun; discriminate.
  rewrite (likelihood_step_run _ _ _ _ _ _ _ _ _ _ _ _ _ Hact Hrew Hget)
    in Hrun.
  injection Hrun as <- <- <-.
  exists action, reward, c, p, w1.
  apply get_action_Ok in Hget as (_ & _ & _ & Hframe).
  destruct Hframe as (Hnt & Hactor & Henv & _).
  rewrite Hnt.
  split; [reflexivity|]. split; [reflexivity|]. split; [reflexivity|].
  split; [reflexivity|]. split; [reflexivity|].
  split; [now destruct (negb (no_term w) || negb (action =? 0)%Z)|].
  intros Hoff. rewrite Hoff. cbn. now split.
Qed.

(** The replay loop of one trial, started at step [k] for [n] steps. *)
Lemma likelihood_loop_Ok acts rews path n : forall k actions rewards
    (w w' : World A E G) actions' rewards',
  foldM (likelihood_step precision_epsilon acts rews path) (seq k n)
    (actions, rewards) w = Ok ((actions', rewards'), w') ->
  actions' = actions ++ take n (drop k acts) /\
  rewards' = rewards ++ take n (drop k rews) /\
  ((0 < n)%nat -> (k + n <= length acts)%nat) /\
  ((0 < n)%nat -> (k + n <= length rews)%nat) /\
  length (action_log_probs (decision_agent w'))
  = (length (action_log_probs (decision_agent w)) + n)%nat /\
  length (history (decision_agent w'))
  = (length (history (decision_agent w)) + n)%nat.
Proof.
  induction n as [|n IH]; intros k actions rewards w w' actions' rewards'.
  - cbn. intros [= <- <- <-]. rewrite !app_nil_r.
    repeat split; lia.
  - cbn [seq foldM]. intros Hrun.
    apply bind_Ok in Hrun as ([a1 r1] & w1 & Hstep & Hrest).
    apply likelihood_step_Ok in Hstep
      as (action & reward & c & p & w0 & Hact & Hrew & Hget & -> & ->
          & Hagent & _).
    apply IH in Hrest as (-> & -> & Hla & Hlr & Hlogs & Hhist).
    apply get_action_Ok in Hget as (_ & _ & Hh0 & Hframe).
    rewrite (drop_S _ _ _ Hact), (drop_S _ _ _ Hrew). cbn [take].
    rewrite <- !app_assoc. cbn [app].
    apply lookup_lt_Some in Hact, Hrew.
    split; [reflexivity|]. split; [reflexivity|].
    split; [lia|]. split; [lia|].
    rewrite Hlogs, Hhist, Hagent. cbn [action_log_probs history
      append_action_log_prob].
    rewrite length_app, Hh0, length_app. cbn [length].
    destruct Hframe as (_ & _ & _ & _ & _ & _ & _ & _ & _ & ->).
    split; lia.
Qed.

(** One returning likelihood-mode trial. *)
Lemma likelihood_trial_Ok fuel p i td (w w' : World A E G) td' :
  run_trial precision_epsilon fuel true p i td w = Ok (td', w') ->
  exists acts rews,
    data_actions p !! i = Some acts /\
    data_rewards p !! i = Some rews /\
    is_Some (data_taken_paths p !! i) /\
    (length acts <= length rews)%nat /\
    trials_a td' = trials_a td ++ [acts] /\
    trials_r td' = trials_r td ++ [replayed_total acts rews] /\
    length (action_log_probs (decision_agent w'))
    = (length (action_log_probs (decision_agent w)) + length acts)%nat /\
    length (history (decision_agent w'))
    = (length (history (decision_agent w)) + length acts)%nat.
Proof.
  unfold run_trial. intros Hrun.
  apply bind_Ok in Hrun as (? & w1 & [= _ <-] & Hrun).
  apply bind_Ok in Hrun as (n & w2 & [= _ <-] & Hrun).
  apply bind_Ok in Hrun as (? & w3 & [= _ <-] & Hrun).
  apply bind_Ok in Hrun as (weights & w4 & [= _ <-] & Hrun).
  apply bind_Ok in Hrun as ([actions rewards] & w5 & Hloop & Hrun).
  apply bind_Ok in Hrun as (? & w6 & [= _ <-] & [= <- <-]).
  apply bind_Ok in Hloop as (acts & w7 & Hacts & Hloop).
  apply bind_Ok in Hloop as (rews & w8 & Hrews & Hloop).
  apply bind_Ok in Hloop as (path & w9 & Hpath & Hloop).
  unfold trial_data in Hacts, Hrews, Hpath.
  destruct (data_actions p !! i) as [acts'|] eqn:Ha; [|discriminate].
  destruct (data_rewards p !! i) as [rews'|] eqn:Hr; [|discriminate].
  destruct (data_taken_paths p !! i) as [path'|] eqn:Hp; [|discriminate].
  injection Hacts as -> <-. injection Hrews as -> <-.
  injection Hpath as -> <-.
  apply likelihood_loop_Ok in Hloop as (-> & -> & _ & Hlr & Hlogs & Hhist).
  rewrite drop_0 in *. rewrite firstn_all in *.
  exists acts, rews.
  split; [reflexivity|]. split; [reflexivity|]. split; [eauto|].
  split; [destruct acts; [cbn; lia|apply Hlr; cbn; lia]|].
  cbn. auto.
Qed.

(** The trial loop of a likelihood run, over trials [k, k + n). *)
Lemma likelihood_trials_Ok fuel p n : forall k td (w w' : World A E G) td',
  foldM (run_trial precision_epsilon fuel true p) (seq k n) td w
  = Ok (td', w') ->
  trials_a td' = trials_a td ++ take n (drop k (data_actions p)) /\
  trials_r td'
  = trials_r td
    ++ zip_with replayed_total (take n (drop k (data_actions p)))
         (take n (drop k (data_rewards p))) /\
  ((0 < n)%nat ->
   (k + n <= length (data_actions p))%nat /\
   (k + n <= length (data_rewards p))%nat /\
   (k + n <= length (data_taken_paths p))%nat) /\
  Forall2 (fun acts rews => (length acts <= length rews)%nat)
    (take n (drop k (data_actions p))) (take n (drop k (data_rewards p))) /\
  length (action_log_probs (decision_agent w'))
  = (length (action_log_probs (decision_agent w))
     + length (concat (take n (drop k (data_actions p)))))%nat /\
  length (history (decision_agent w'))
  = (length (history (decision_agent w))
     + length (concat (take n (drop k (data_actions p)))))%nat.
Proof.
  induction n as [|n IH]; intros k td w w' td'.
  - cbn [seq foldM]. intros [= <- <-]. rewrite !take_0. cbn.
    rewrite !app_nil_r.
    split; [reflexivity|]. split; [reflexivity|].
    split; [intros; lia|]. split; [constructor|]. split; lia.
  - cbn [seq foldM]. intros Hrun.
    apply bind_Ok in Hrun as (td1 & w1 & Hone & Hrest).
    apply likelihood_trial_Ok in Hone
      as (acts & rews & Ha & Hr & [path Hp] & Hlen & Hta & Htr & Hlogs
          & Hhist).
    apply IH in Hrest as (Hta' & Htr' & Hbounds & Hall & Hlogs' & Hhist').
    rewrite (drop_S _ _ _ Ha), (drop_S _ _ _ Hr).
    cbn [take concat zip_with].
    pose proof (lookup_lt_Some _ _ _ Ha) as Hka.
    pose proof (lookup_lt_Some _ _ _ Hr) as Hkr.
    pose proof (lookup_lt_Some _ _ _ Hp) as Hkp.
    split; [rewrite Hta', Hta, <- app_assoc; reflexivity|].
    split; [rewrite Htr', Htr, <- app_assoc; reflexivity|].
    split.
    { intros _. destruct n as [|n]; [lia|].
      destruct Hbounds as (? & ? & ?); lia. }
    split; [constructor; assumption|].
    rewrite Hlogs', Hhist', Hlogs, Hhist, length_app.
    split; lia.
Qed.

Lemma likelihood_run_Ok fuel p (w w' : World A E G) rec :
  simulate precision_epsilon fuel true (Some p) w = Ok (rec, w') ->
  let n := num_trials (env w) in
  trials_a rec = take n (data_actions p) /\
  trials_r rec
  = zip_with replayed_total (take n (data_actions p))
      (take n (data_rewards p)) /\
  ((0 < n)%nat ->
   (n <= length (data_actions p))%nat /\
   (n <= length (data_rewards p))%nat /\
   (n <= length (data_taken_paths p))%nat) /\
  Forall2 (fun acts rews => (length acts <= length rews)%nat)
    (take n (data_actions p)) (take n (data_rewards p)) /\
  length (action_log_probs (decision_agent w'))
  = (length (action_log_probs (decision_agent w))
     + length (concat (take n (data_actions p))))%nat /\
  length (history (decision_agent w'))
  = length (concat (take n (data_actions p))).
Proof.
  intros Hrun n. apply simulate_Ok in Hrun as (p' & td & [= <-] & Hloop & ->).
  apply likelihood_trials_Ok in Hloop
    as (Ha & Hr & Hbounds & Hall & Hlogs & Hhist).
  rewrite drop_0 in *. cbn in Ha, Hr, Hlogs, Hhist.
  cbn [trials_a trials_r run_finish].
  fold n in Ha, Hr, Hbounds, Hall, Hlogs, Hhist.
  split; [exact Ha|]. split; [exact Hr|].
  split; [intros Hn; destruct (Hbounds Hn) as (? & ? & ?); cbn in *; auto|].
  split; [exact Hall|]. split; [exact Hlogs|exact Hhist].
Qed.

(** X16: A likelihood run that returns stores under ["a"] the
    participant's own action lists of the first [num_trials] trials, and
    under ["r"], for each of them, the sum of as many of the trial's rewards
    as it has actions. *)
Theorem likelihood_run_replays_participant fuel p (w w' : World A E G) rec :
  simulate precision_epsilon fuel true (Some p) w = Ok (rec, w') ->
  trials_a rec = take (num_trials (env w)) (data_actions p) /\
  trials_r rec
  = zip_with replayed_total (take (num_trials (env w)) (data_actions p))
      (take (num_trials (env w)) (data_rewards p)).
Proof.
  intros Hrun. apply likelihood_run_Ok in Hrun as (Ha & Hr & _). now split.
Qed.

(** X17: A likelihood run that returns has appended one
    log-probability per replayed action to the decision agent's
    [action_log_probs], and its [history], reset at the start of the run,
    holds one entry per replayed action. *)
Theorem likelihood_run_logs_every_step fuel p (w w' : World A E G) rec :
  simulate precision_epsilon fuel true (Some p) w = Ok (rec, w') ->
  length (action_log_probs (decision_agent w'))
  = (length (action_log_probs (decision_agent w))
     + length (concat (trials_a rec)))%nat /\
  length (history (decision_agent w')) = length (concat (trials_a rec)).
Proof.
  intros Hrun.
  apply likelihood_run_Ok in Hrun as (Ha & _ & _ & _ & Hlogs & Hhist).
  rewrite Ha. now split.
Qed.

(** X18: A likelihood run returns only if the participant has at
    least [num_trials] trials under ["actions"], ["rewards"] and
    ["taken_paths"] and every replayed trial has at least as many rewards as
    actions (otherwise an index is out of range). *)
Theorem likelihood_run_needs_matching_data fuel p (w w' : World A E G) rec :
  simulate precision_epsilon fuel true (Some p) w = Ok (rec, w') ->
  (num_trials (env w) <= length (data_actions p))%nat /\
  (num_trials (env w) <= length (data_rewards p))%nat /\
  (num_trials (env w) <= length (data_taken_paths p))%nat /\
  Forall2 (fun acts rews => (length acts <= length rews)%nat)
    (take (num_trials (env w)) (data_actions p))
    (take (num_trials (env w)) (data_rewards p)).
Proof.
  intros Hrun.
  apply likelihood_run_Ok in Hrun as (_ & _ & Hbounds & Hall & _).
  destruct (num_trials (env w)) as [|n] eqn:Hn.
  - repeat split; try lia. exact Hall.
  - destruct Hbounds as (? & ? & ?); [lia|]. repeat split; try lia.
    exact Hall.
Qed.

(** X22: With [no_term] set, replaying the observed action [0] in
    likelihood mode calls neither [store_action_likelihood] nor
    [take_action_and_learn]: the actor agent and the environment are
    unchanged by the step. *)
Theorem no_term_terminal_step_skips_actor acts rews path i actions rewards
    (w w' : World A E G) out :
  no_term w = true ->
  acts !! i = Some 0%Z ->
  likelihood_step precision_epsilon acts rews path i (actions, rewards) w
  = Ok (out, w') ->
  actor_agent w' = actor_agent w /\ env w' = env w.
Proof.
  intros Hnt Hact Hrun. destruct out as [actions' rewards'].
  apply likelihood_step_Ok in Hrun
    as (action & reward & c & p & w1 & Hact' & _ & _ & _ & _ & _ & Hskip).
  rewrite Hact in Hact'. injection Hact' as <-.
  apply Hskip. now rewrite Hnt.
Qed.

End TrialShapes.


Module OptimizerFacts.
Import Optimizer.

Lemma hyperopt_step_keys space row space' :
  hyperopt_step space row = Done space' ->
  forall k, is_Some (space' !! k) -> k = row_name row \/ is_Some (space !! k).
Proof.
  destruct row as [[param param_type] param_range]. unfold hyperopt_step.
  intros Hstep k Hk.
  destruct (negb (String.eqb param_type "constant")).
  - destruct (range_index param_range 0) as [a|]; [|discriminate].
    destruct (range_index param_range 1) as [b|]; [|discriminate].
    repeat match type of Hstep with
           | (if ?c then _ else _) = _ => destruct c
           end;
      injection Hstep as <-;
      try (rewrite lookup_insert in Hk; case_decide; subst; auto).
    now right.
  - injection Hstep as <-.
    rewrite lookup_insert in Hk; case_decide; subst; auto.
Qed.

Lemma hyperopt_loop_keys params_list : forall space space',
  hyperopt_loop params_list space = Done space' ->
  forall k, is_Some (space' !! k) ->
            k ∈ row_name <$> params_list \/ is_Some (space !! k).
Proof.
  induction params_list as [|row rest IH]; intros space space'; cbn.
  - intros [= <-] k Hk. now right.
  - destruct (hyperopt_step space row) as [space1|] eqn:Hstep; [|discriminate].
    intros Hloop k Hk.
    destruct (IH _ _ Hloop k Hk) as [Hin|Hk1].
    + left. apply elem_of_cons. now right.
    + destruct (hyperopt_step_keys _ _ _ Hstep k Hk1) as [->|Hk0].
      * left. apply elem_of_cons. now left.
      * now right.
Qed.

(** X23: [hyperopt_space] always returns the entry ["lik_sigma"] as
    the uniform dimension over [[log 1e-3, log 1e3]], overwriting a
    parameter of the same name, and every other key of the space is the name
    of a row of [params_list]. *)
Theorem hyperopt_space_lik_sigma params_list space :
  hyperopt_space params_list = Done space ->
  space !! "lik_sigma"%string
  = Some (HpUniform "lik_sigma" (ln (/ 1000)) (ln 1000)) /\
  (forall k, is_Some (space !! k) ->
             k = "lik_sigma"%string \/ k ∈ row_name <$> params_list).
Proof.
  unfold hyperopt_space.
  destruct (hyperopt_loop params_list ∅) as [space0|] eqn:Hloop;
    [|discriminate].
  intros [= <-]. split; [apply lookup_insert_eq|].
  intros k Hk. rewrite lookup_insert in Hk. case_decide; [now left|].
  destruct (hyperopt_loop_keys _ _ _ Hloop k Hk) as [Hin|Hempty];
    [now right|].
  rewrite lookup_empty in Hempty. now destruct Hempty.
Qed.

Lemma search_steps_agree space prior row :
  dom space = dom prior ->
  (forall k, option_Forall2 same_dimension (space !! k) (prior !! k)) ->
  match hyperopt_step space row, pyabc_step prior row with
  | Done space', Done prior' =>
      dom space' = dom prior' /\
      forall k, option_Forall2 same_dimension (space' !! k) (prior' !! k)
  | Failed e, Failed e' => e = e'
  | _, _ => False
  end.
Proof.
  intros Hdom Hsame.
  assert (forall k (x : hp_entry) (y : rv),
            same_dimension x y ->
            dom (<[k := x]> space) = dom (<[k := y]> prior) /\
            forall k', option_Forall2 same_dimension
                         (<[k := x]> space !! k') (<[k := y]> prior !! k'))
    as Hinsert.
  { intros k x y Hxy. split; [rewrite !dom_insert_L; now rewrite Hdom|].
    intros k'. rewrite !lookup_insert. case_decide; [now constructor|].
    apply Hsame. }
  destruct row as [[param param_type] param_range].
  unfold hyperopt_step, pyabc_step.
  destruct (negb (String.eqb param_type "constant"));
    [|apply Hinsert; constructor].
  destruct param_range as [xs|x]; cbn [range_index]; [|reflexivity].
  destruct (xs !! 0%nat) as [a|] eqn:Ha; [|reflexivity].
  destruct (xs !! 1%nat) as [b|] eqn:Hb; [|reflexivity].
  destruct (String.eqb_spec param_type "uniform") as [->|Hu].
  { cbn. apply Hinsert. constructor. }
  destruct (String.eqb_spec param_type "loguniform") as [->|Hl].
  { cbn. apply Hinsert. constructor. }
  destruct (String.eqb_spec param_type "quniform") as [->|Hq].
  { cbn. apply Hinsert. constructor. }
  destruct (String.eqb_spec param_type "normal") as [->|Hn].
  { cbn. apply Hinsert.
    destruct xs as [|a' [|b' more]]; try discriminate.
    injection Ha as ->. injection Hb as ->. cbn. constructor. }
  cbn. now split.
Qed.

Lemma search_loops_agree params_list : forall space prior,
  dom space = dom prior ->
  (forall k, option_Forall2 same_dimension (space !! k) (prior !! k)) ->
  match hyperopt_loop params_list space, pyabc_loop params_list prior with
  | Done space', Done prior' =>
      dom space' = dom prior' /\
      forall k, option_Forall2 same_dimension (space' !! k) (prior' !! k)
  | Failed e, Failed e' => e = e'
  | _, _ => False
  end.
Proof.
  induction params_list as [|row rest IH]; intros space prior Hdom Hsame.
  - cbn. now split.
  - cbn. pose proof (search_steps_agree space prior row Hdom Hsame) as Hstep.
    destruct (hyperopt_step space row) as [space1|e1],
             (pyabc_step prior row) as [prior1|e2]; try contradiction.
    + destruct Hstep as [Hdom1 Hsame1]. now apply IH.
    + exact Hstep.
Qed.

Lemma search_spaces_agree params_list :
  match hyperopt_space params_list, pyabc_prior params_list with
  | Done space, Done prior =>
      dom space = {["lik_sigma"%string]} ∪ dom prior /\
      forall k, k <> "lik_sigma"%string ->
                option_Forall2 same_dimension (space !! k) (prior !! k)
  | Failed e, Failed e' => e = e'
  | _, _ => False
  end.
Proof.
  unfold hyperopt_space, pyabc_prior.
  pose proof (search_loops_agree params_list ∅ ∅) as Hloop.
  destruct (hyperopt_loop params_list ∅) as [space|e1],
           (pyabc_loop params_list ∅) as [prior|e2].
  - destruct Hloop as [Hdom Hsame].
    + now rewrite !dom_empty_L.
    + intros k. rewrite !lookup_empty. constructor.
    + split; [rewrite dom_insert_L; now rewrite Hdom|].
      intros k Hk. rewrite lookup_insert_ne by congruence. apply Hsame.
  - apply Hloop; [now rewrite !dom_empty_L|].
    intros k. rewrite !lookup_empty. constructor.
  - apply Hloop; [now rewrite !dom_empty_L|].
    intros k. rewrite !lookup_empty. constructor.
  - apply Hloop; [now rewrite !dom_empty_L|].
    intros k. rewrite !lookup_empty. constructor.
Qed.

(** X24: Whenever [hyperopt_space] and [pyabc_prior] both return on a
    parameter list, they define the same parameters: the keys of the
    hyperopt space are the keys of the pyabc prior and ["lik_sigma"]. *)
Theorem search_spaces_share_names params_list space prior :
  hyperopt_space params_list = Done space ->
  pyabc_prior params_list = Done prior ->
  dom space = {["lik_sigma"%string]} ∪ dom prior.
Proof.
  intros Hspace Hprior.
  pose proof (search_spaces_agree params_list) as Hagree.
  rewrite Hspace, Hprior in Hagree. apply Hagree.
Qed.


Lemma indexed_name_inj t i j : indexed_name t i = indexed_name t j -> i = j.
Proof.
  unfold indexed_name. intros Heq.
  apply (inj (String.app t)) in Heq.
  apply (inj (String.app "_")) in Heq.
  now apply (inj pretty) in Heq.
Qed.

Lemma make_prior_from_names d t count : forall i rows,
  make_prior_from d t i count = Done rows ->
  row_name <$> rows = indexed_name t <$> seq i count.
Proof.
  induction count as [|count IH]; intros i rows; cbn.
  - now intros [= <-].
  - unfold param_info at 1.
    destruct (dict_type d) as [ty|]; [|discriminate].
    destruct (dict_range d) as [r|]; [|discriminate].
    destruct (make_prior_from d t (S i) count) as [rest|] eqn:Hrest;
      [|discriminate].
    intros [= <-]. cbn. f_equal. now apply IH.
Qed.

Lemma combine_priors_from_Done params prefix count : forall i,
  (forall j, (i <= j < i + count)%nat ->
             is_Some (params !! indexed_name prefix j)) ->
  exists ws,
    combine_priors_from params prefix i count = Done ws /\
    length ws = count /\
    forall j, (j < count)%nat ->
              ws !! j = params !! indexed_name prefix (i + j).
Proof.
  induction count as [|count IH]; intros i Hkeys; cbn.
  - exists []. split; [reflexivity|]. split; [reflexivity|]. intros; lia.
  - destruct (Hkeys i ltac:(lia)) as [x Hx]. rewrite Hx.
    destruct (IH (S i)) as (ws & -> & Hlen & Hget).
    { intros j Hj. apply Hkeys. lia. }
    exists (x :: ws). split; [reflexivity|]. split; [cbn; lia|].
    intros [|j] Hj; cbn.
    + now rewrite Nat.add_0_r.
    + rewrite Hget by lia. f_equal. f_equal. lia.
Qed.

(** X26: [make_prior] without [bandit_prior] yields [num_priors] rows
    with pairwise distinct names, and these are the keys [combine_priors]
    reads with its default prefix: on a sampled point that has them,
    [combine_priors] returns [num_priors] weights, the [i]-th being the
    value of the [i]-th row's name. *)
Theorem make_prior_names_feed_combine_priors d num_priors rows
    (params : gmap string R) :
  make_prior d num_priors false = Done rows ->
  (forall name, name ∈ row_name <$> rows -> is_Some (params !! name)) ->
  NoDup (row_name <$> rows) /\
  length rows = num_priors /\
  exists ws,
    combine_priors params num_priors "prior" = Done ws /\
    length ws = num_priors /\
    forall i row, rows !! i = Some row -> ws !! i = params !! row_name row.
Proof.
  unfold make_prior, combine_priors. intros Hrows Hkeys.
  apply make_prior_from_names in Hrows as Hnames.
  assert (length rows = num_priors) as Hlen.
  { apply (f_equal length) in Hnames.
    now rewrite !length_fmap, length_seq in Hnames. }
  split.
  { rewrite Hnames.
    apply (NoDup_fmap_2_strong (indexed_name "prior")); [|apply NoDup_seq].
    intros i j _ _. apply indexed_name_inj. }
  split; [exact Hlen|].
  destruct (combine_priors_from_Done params "prior" num_priors 0)
    as (ws & Hws & Hwlen & Hget).
  { intros j Hj. apply Hkeys. rewrite Hnames.
    apply list_elem_of_fmap. exists j. split; [reflexivity|].
    apply elem_of_seq. lia. }
  exists ws. split; [exact Hws|]. split; [exact Hwlen|].
  intros i row Hrow.
  pose proof (lookup_lt_Some _ _ _ Hrow) as Hi.
  rewrite Hget by lia. cbn. f_equal.
  apply (f_equal (fun l => l !! i)) in Hnames.
  rewrite !list_lookup_fmap, Hrow, lookup_seq_lt in Hnames by lia.
  cbn in Hnames. now injection Hnames as ->.
Qed.

(** X27: [combine_priors] raises [KeyError] for the first index
    below [num_priors] whose key [prefix_i] is missing from the sampled
    point. *)
Theorem combine_priors_reports_first_missing_key (params : gmap string R)
    num_priors prefix i :
  (i < num_priors)%nat ->
  params !! indexed_name prefix i = None ->
  (forall j, (j < i)%nat -> is_Some (params !! indexed_name prefix j)) ->
  combine_priors params num_priors prefix
  = Failed (ConfigKeyError (indexed_name prefix i)).
Proof.
  unfold combine_priors. intros Hi Hmissing Hbefore.
  assert (forall count k,
            (k <= i < k + count)%nat ->
            combine_priors_from params prefix k count
            = Failed (ConfigKeyError (indexed_name prefix i))) as Hloop.
  { induction count as [|count IH]; intros k Hk; [lia|]. cbn.
    destruct (decide (k = i)) as [->|Hne].
    - now rewrite Hmissing.
    - destruct (Hbefore k ltac:(lia)) as [x ->].
      now rewrite IH by lia. }
  apply Hloop. lia.
Qed.

Lemma get_params_list_names params_dict : forall rows,
  get_params_list params_dict = Done rows ->
  row_name <$> rows
  = (filter (fun entry => is_Some entry.2) params_dict).*1.
Proof.
  induction params_dict as [|[param [d|]] rest IH]; intros rows;
    cbn [get_params_list].
  - now intros [= <-].
  - unfold param_info at 1.
    destruct (dict_type d) as [ty|]; [|discriminate].
    destruct (dict_range d) as [r|]; [|discriminate].
    destruct (get_params_list rest) as [rows'|]; [|discriminate].
    intros [= <-]. rewrite filter_cons_True by (cbn; eauto).
    cbn. f_equal. now apply IH.
  - intros Hrest. rewrite filter_cons_False by (cbn; intros [? [=]]).
    now apply IH.
Qed.

(** X28: [get_params_list] returns one row per parameter whose
    configuration is not falsy, in the order of the dictionary and under the
    parameter's name, each row carrying the ["type"] and ["range"] of that
    configuration. *)
Theorem get_params_list_skips_falsy_entries params_dict rows :
  get_params_list params_dict = Done rows ->
  row_name <$> rows
  = (filter (fun entry => is_Some entry.2) params_dict).*1 /\
  (forall param param_type param_range,
     (param, param_type, param_range) ∈ rows ->
     exists d, (param, Some d) ∈ params_dict /\
               dict_type d = Some param_type /\
               dict_range d = Some param_range).
Proof.
  intros Hrows. split; [now apply get_params_list_names|].
  revert rows Hrows.
  induction params_dict as [|[param [d|]] rest IH]; intros rows; cbn.
  - intros [= <-] ? ? ? Hin. now apply elem_of_nil in Hin.
  - unfold param_info at 1.
    destruct (dict_type d) as [ty|] eqn:Hty; [|discriminate].
    destruct (dict_range d) as [r|] eqn:Hr; [|discriminate].
    destruct (get_params_list rest) as [rows'|]; [|discriminate].
    intros [= <-] p t rg [[= -> -> ->]|Hin]%elem_of_cons.
    + exists d. split; [apply elem_of_cons; now left|now split].
    + destruct (IH rows' eq_refl p t rg Hin) as (d' & Hd' & Ht & Hrg).
      exists d'. split; [apply elem_of_cons; now right|now split].
  - intros Hrest p t rg Hin.
    destruct (IH rows Hrest p t rg Hin) as (d' & Hd' & Ht & Hrg).
    exists d'. split; [apply elem_of_cons; now right|now split].
Qed.

End OptimizerFacts.

(** ** The properties above on concrete runs *)

Module Examples.
Import Scripted Runs Samples Optimizer OptimizerFacts.

(** X2 on the payoffs [-2], [5], [3]. *)
Lemma max_payoff_is_max_of_nonnegative_witness :
  py_max [-2; 5; 3] = Some 5 /\
  0 <= 5 /\
  max_payoff (record_payoffs [-2; 5; 3]
                (init_model_params (agent "best_payoff" ∅))) = 5.
Proof.
  assert (py_max [-2; 5; 3] = Some 5) as Hmax.
  { cbn. destruct (Rgt_dec 5 3); [|lra]. destruct (Rgt_dec (-2) 5); [lra|].
    reflexivity. }
  split; [exact Hmax|]. split; [lra|].
  apply (max_payoff_is_max_of_nonnegative [-2; 5; 3] 5); [exact Hmax|lra].
Defined.

Lemma two_actions_not_one (w : World (list R) Env (list bool)) mer n :
  env w = set_trial_num n (two_actions_env mer) ->
  length (get_available_actions (env w)) <> 1%nat.
Proof. intros ->. cbn. lia. Qed.

(** X5 at the rule name ["satisficing"]. *)
Lemma unknown_rule_raises_witness :
  (decision_rule (decision_agent unknown_rule_world) ∉ known_rules) /\
  length (get_available_actions (env unknown_rule_world)) <> 1%nat /\
  compute_stop_prob default_args unknown_rule_world
  = Raise (UnboundLocalError "p_stop").
Proof.
  assert ("satisficing"%string ∉ known_rules) as Hrule.
  { unfold known_rules. intros Hin.
    repeat (apply elem_of_cons in Hin as [Heq|Hin]; [discriminate Heq|]).
    now apply elem_of_nil in Hin. }
  assert (length (get_available_actions (env unknown_rule_world)) <> 1%nat)
    as Hlen by (cbn; lia).
  split; [exact Hrule|]. split; [exact Hlen|].
  apply (unknown_rule_raises default_args unknown_rule_world Hrule Hlen).
Defined.

(** X6 with two available actions. *)
Lemma feature_rule_raises_witness :
  decision_rule (decision_agent feature_world) = "feature"%string /\
  length (get_available_actions (env feature_world)) <> 1%nat /\
  compute_stop_prob default_args feature_world
  = Raise (AttributeError "termination_features").
Proof.
  assert (length (get_available_actions (env feature_world)) <> 1%nat)
    as Hlen by (cbn; lia).
  split; [reflexivity|]. split; [exact Hlen|].
  apply (feature_rule_raises default_args feature_world eq_refl Hlen).
Defined.

(** X7 at the ["VPI"] rule with no parameter stored. *)
Lemma missing_theta_raises_witness :
  (decision_rule (decision_agent vpi_world) ∈ theta_rules) /\
  params (decision_agent vpi_world) !! "theta"%string = None /\
  length (get_available_actions (env vpi_world)) <> 1%nat /\
  compute_stop_prob default_args vpi_world = Raise (KeyError "theta").
Proof.
  assert ("VPI"%string ∈ theta_rules) as Hrule.
  { unfold theta_rules. do 3 (apply elem_of_cons; right).
    apply elem_of_cons. now left. }
  assert (length (get_available_actions (env vpi_world)) <> 1%nat)
    as Hlen by (cbn; lia).
  split; [exact Hrule|]. split; [reflexivity|]. split; [exact Hlen|].
  apply (missing_theta_raises default_args vpi_world Hrule eq_refl Hlen).
Defined.

(** X8 at the first ["noisy_memory_best_payoff"] decision. *)
Lemma compute_stop_prob_pure_witness :
  decision_rule (decision_agent noisy_world) <> "quantile"%string /\
  decision_rule (decision_agent noisy_world) <> "confidence_bound"%string /\
  compute_stop_prob default_args noisy_world = Ok (- (1 / 2), noisy_world) /\
  noisy_world = noisy_world.
Proof.
  pose proof (noisy_memory_first_decision default_args [] eq_refl eq_refl)
    as Hrun.
  split; [discriminate|]. split; [discriminate|]. split; [exact Hrun|].
  apply (compute_stop_prob_pure default_args noisy_world noisy_world
           (- (1 / 2))); [discriminate|discriminate|exact Hrun].
Defined.

(** X9 at a stored ["theta"] of [3/2]. *)
Lemma quantile_clamp_invariant_witness :
  decision_rule (decision_agent quantile_world) = "quantile"%string /\
  length (get_available_actions (env quantile_world)) <> 1%nat /\
  compute_stop_prob default_args quantile_world
  = Ok (temp_sigmoid 0 (exp 0),
        with_decision_agent
          (fun a => set_params (<["theta"%string := 1]> (params a)) a)
          quantile_world) /\
  exists theta,
    params (decision_agent
              (with_decision_agent
                 (fun a => set_params (<["theta"%string := 1]> (params a)) a)
                 quantile_world)) !! "theta"%string = Some theta /\
    0 <= theta <= 1.
Proof.
  assert (length (get_available_actions (env quantile_world)) <> 1%nat)
    as Hlen by (cbn; lia).
  split; [reflexivity|]. split; [exact Hlen|]. split; [exact quantile_run|].
  exact (proj1 (quantile_clamp_invariant default_args quantile_world _ _
                  eq_refl Hlen quantile_run)).
Defined.

(** X10 with [alpha = 1] and [beta = 1/2]. *)
Lemma noisy_memory_empty_history_witness :
  decision_rule (decision_agent noisy_world)
  = "noisy_memory_best_payoff"%string /\
  length (get_available_actions (env noisy_world)) <> 1%nat /\
  params (decision_agent noisy_world) !! "alpha"%string = Some 1 /\
  params (decision_agent noisy_world) !! "beta"%string = Some (/ 2) /\
  path_history empty_history_args = [] /\
  compute_stop_prob empty_history_args noisy_world = Ok (0, noisy_world).
Proof.
  assert (length (get_available_actions (env noisy_world)) <> 1%nat)
    as Hlen by (cbn; lia).
  split; [reflexivity|]. split; [exact Hlen|]. split; [reflexivity|].
  split; [reflexivity|]. split; [reflexivity|].
  apply (noisy_memory_empty_history empty_history_args noisy_world 1 (/ 2)
           eq_refl Hlen eq_refl eq_refl eq_refl).
Defined.

(** X11 at ["threshold_var"] [= -1] in the first trial. *)
Lemma confidence_bound_negative_spread_witness :
  decision_rule (decision_agent spread_world) = "confidence_bound"%string /\
  length (get_available_actions (env spread_world)) <> 1%nat /\
  (0 <= present_trial_num (env spread_world))%Z /\
  params (decision_agent spread_world) !! "threshold_var"%string
  = Some (-1) /\
  -1 < 0 /\
  compute_stop_prob default_args spread_world
  = Raise (ValueError "scale < 0").
Proof.
  assert (length (get_available_actions (env spread_world)) <> 1%nat)
    as Hlen by (cbn; lia).
  assert (-1 < 0) as Hneg by lra.
  split; [reflexivity|]. split; [exact Hlen|]. split; [cbn; lia|].
  split; [reflexivity|]. split; [exact Hneg|].
  apply (confidence_bound_negative_spread default_args spread_world (-1)
           eq_refl Hlen); [cbn; lia| |reflexivity|exact Hneg].
  intros _. exists 0. reflexivity.
Defined.

(** X12 at a ["quantile"] evaluation. *)
Lemma compute_stop_prob_range_witness :
  decision_rule (decision_agent quantile_world)
  <> "noisy_memory_best_payoff"%string /\
  compute_stop_prob default_args quantile_world
  = Ok (temp_sigmoid 0 (exp 0),
        with_decision_agent
          (fun a => set_params (<["theta"%string := 1]> (params a)) a)
          quantile_world) /\
  0 <= temp_sigmoid 0 (exp 0) <= 1.
Proof.
  split; [discriminate|]. split; [exact quantile_run|].
  apply (compute_stop_prob_range default_args quantile_world
           (with_decision_agent
              (fun a => set_params (<["theta"%string := 1]> (params a)) a)
              quantile_world)
           (temp_sigmoid 0 (exp 0)));
    [discriminate|exact quantile_run].
Defined.


(** X13 at a ["best_payoff"] decision that continues. *)
Lemma get_action_returns_valid_decision_witness :
  let w' := world_after "best_payoff" theta_zero
              (set_trial_num 0 (two_actions_env 8)) [] [8] [] [] in
  get_action (best_payoff_world [true]) = Ok ((1%Z, p_stop_8), w') /\
  0 <= p_stop_8 <= 1 /\
  (1%Z = 0%Z \/ 1%Z = 1%Z) /\
  history (decision_agent w')
  = history (decision_agent (best_payoff_world [true]))
    ++ [calculate_max_expected_return (env (best_payoff_world [true]))] /\
  decision_frame (best_payoff_world [true]) w'.
Proof.
  intros w'.
  assert (get_action (best_payoff_world [true]) = Ok ((1%Z, p_stop_8), w'))
    as Hrun by apply (get_action_scripted 0 [true] [] [] []).
  split; [exact Hrun|].
  apply (get_action_returns_valid_decision (best_payoff_world [true]) w'
           1%Z p_stop_8 Hrun).
Defined.

(** X14 on the environment with one action left. *)
Lemma get_action_single_action_witness :
  length (get_available_actions (env single_action_world)) = 1%nat /\
  get_action single_action_world
  = Ok ((Z.b2z (snd (random_choice (rng single_action_world) 1)), 1),
        with_rng (fst (random_choice (rng single_action_world) 1))
          (with_decision_agent
             (update_history
                (calculate_max_expected_return (env single_action_world)))
             single_action_world)).
Proof.
  assert (length (get_available_actions (env single_action_world)) = 1%nat)
    as Hlen by reflexivity.
  split; [exact Hlen|].
  apply (get_action_single_action single_action_world Hlen).
Defined.

(** X15 on the generative run of one trial. *)
Lemma simulate_record_lengths_witness :
  let rec := {| trials_w := [[]];
                trials_a := [[1%Z; 0%Z; 0%Z]];
                trials_r := [np_sum [0; 3]];
                trials_loss := None |} in
  let w' := world_after "best_payoff" theta_zero
              (set_trial_num 1 (two_actions_env 8)) [] [8; 8] [] [] in
  simulate precision_epsilon 2 false (Some participant)
    (best_payoff_world [true; false]) = Ok (rec, w') /\
  length (trials_w rec) = num_trials (env (best_payoff_world [true; false])) /\
  length (trials_a rec) = num_trials (env (best_payoff_world [true; false])) /\
  length (trials_r rec) = num_trials (env (best_payoff_world [true; false])).
Proof.
  intros rec w'. split; [exact generative_run|].
  apply (simulate_record_lengths precision_epsilon 2 false (Some participant)
           (best_payoff_world [true; false]) w' rec generative_run).
Defined.

(** X19 on the generative run of one trial. *)
Lemma generative_run_logs_nothing_witness :
  let rec := {| trials_w := [[]];
                trials_a := [[1%Z; 0%Z; 0%Z]];
                trials_r := [np_sum [0; 3]];
                trials_loss := None |} in
  let w' := world_after "best_payoff" theta_zero
              (set_trial_num 1 (two_actions_env 8)) [] [8; 8] [] [] in
  simulate precision_epsilon 2 false (Some participant)
    (best_payoff_world [true; false]) = Ok (rec, w') /\
  action_log_probs (decision_agent w')
  = action_log_probs (decision_agent (best_payoff_world [true; false])).
Proof.
  intros rec w'. split; [exact generative_run|].
  apply (generative_run_logs_nothing precision_epsilon 2 (Some participant)
           (best_payoff_world [true; false]) w' rec generative_run).
Defined.

(** The record and the learner after the likelihood run on the one
    recorded trial. *)
Lemma likelihood_run_from_start
    (logs' := [ln (observed_choice_prob precision_epsilon 1 p_stop_8);
               ln (observed_choice_prob precision_epsilon 0 p_stop_8)]) :
  simulate precision_epsilon 0 true (Some participant) (best_payoff_world [])
  = Ok ({| trials_w := [[]];
           trials_a := [[1%Z; 0%Z]];
           trials_r := [np_sum [0; 3]];
           trials_loss := final_loss logs' [0; 0] |},
        world_after "best_payoff" theta_zero
          (set_trial_num 1 (two_actions_env 8)) [] [8; 8] logs' [0; 0]).
Proof. apply (likelihood_run 0 [] [] []). Qed.

(** X16 on the likelihood run over the recorded trial. *)
Lemma likelihood_run_replays_participant_witness :
  let logs' := [ln (observed_choice_prob precision_epsilon 1 p_stop_8);
                ln (observed_choice_prob precision_epsilon 0 p_stop_8)] in
  let rec := {| trials_w := [[]];
                trials_a := [[1%Z; 0%Z]];
                trials_r := [np_sum [0; 3]];
                trials_loss := final_loss logs' [0; 0] |} in
  let w' := world_after "best_payoff" theta_zero
              (set_trial_num 1 (two_actions_env 8)) [] [8; 8] logs' [0; 0] in
  simulate precision_epsilon 0 true (Some participant) (best_payoff_world [])
  = Ok (rec, w') /\
  trials_a rec
  = take (num_trials (env (best_payoff_world []))) (data_actions participant) /\
  trials_r rec
  = zip_with replayed_total
      (take (num_trials (env (best_payoff_world [])))
         (data_actions participant))
      (take (num_trials (env (best_payoff_world [])))
         (data_rewards participant)).
Proof.
  intros logs' rec w'. split; [exact likelihood_run_from_start|].
  apply (likelihood_run_replays_participant precision_epsilon 0 participant
           (best_payoff_world []) w' rec likelihood_run_from_start).
Defined.

(** X17 on the likelihood run over the recorded trial. *)
Lemma likelihood_run_logs_every_step_witness :
  let logs' := [ln (observed_choice_prob precision_epsilon 1 p_stop_8);
                ln (observed_choice_prob precision_epsilon 0 p_stop_8)] in
  let rec := {| trials_w := [[]];
                trials_a := [[1%Z; 0%Z]];
                trials_r := [np_sum [0; 3]];
                trials_loss := final_loss logs' [0; 0] |} in
  let w' := world_after "best_payoff" theta_zero
              (set_trial_num 1 (two_actions_env 8)) [] [8; 8] logs' [0; 0] in
  simulate precision_epsilon 0 true (Some participant) (best_payoff_world [])
  = Ok (rec, w') /\
  length (action_log_probs (decision_agent w'))
  = (length (action_log_probs (decision_agent (best_payoff_world [])))
     + length (concat (trials_a rec)))%nat /\
  length (history (decision_agent w')) = length (concat (trials_a rec)).
Proof.
  intros logs' rec w'. split; [exact likelihood_run_from_start|].
  apply (likelihood_run_logs_every_step precision_epsilon 0 participant
           (best_payoff_world []) w' rec likelihood_run_from_start).
Defined.

(** X18 on the likelihood run over the recorded trial. *)
Lemma likelihood_run_needs_matching_data_witness :
  let logs' := [ln (observed_choice_prob precision_epsilon 1 p_stop_8);
                ln (observed_choice_prob precision_epsilon 0 p_stop_8)] in
  let rec := {| trials_w := [[]];
                trials_a := [[1%Z; 0%Z]];
                trials_r := [np_sum [0; 3]];
                trials_loss := final_loss logs' [0; 0] |} in
  let w' := world_after "best_payoff" theta_zero
              (set_trial_num 1 (two_actions_env 8)) [] [8; 8] logs' [0; 0] in
  let n := num_trials (env (best_payoff_world [])) in
  simulate precision_epsilon 0 true (Some participant) (best_payoff_world [])
  = Ok (rec, w') /\
  (n <= length (data_actions participant))%nat /\
  (n <= length (data_rewards participant))%nat /\
  (n <= length (data_taken_paths participant))%nat /\
  Forall2 (fun acts rews => (length acts <= length rews)%nat)
    (take n (data_actions participant)) (take n (data_rewards participant)).
Proof.
  intros logs' rec w' n. split; [exact likelihood_run_from_start|].
  apply (likelihood_run_needs_matching_data precision_epsilon 0 participant
           (best_payoff_world []) w' rec likelihood_run_from_start).
Defined.

(** X20 on a trial that the decision agent stops at once. *)
Lemma generative_trial_shape_witness :
  let w1 := world_after "best_payoff" theta_zero
              (set_trial_num 0 (two_actions_env 8)) [] [8] [] [] in
  generative_loop 1 ([], []) (best_payoff_world [])
  = Ok (([0%Z; 0%Z], [stop_reward w1]), after_stop w1) /\
  exists new_actions new_rewards,
    [0%Z; 0%Z] = [] ++ new_actions /\
    [stop_reward w1] = [] ++ new_rewards /\
    new_rewards <> [] /\
    (length new_actions = length new_rewards \/
     exists clicks,
       new_actions = clicks ++ [0%Z; 0%Z] /\
       length new_rewards = S (length clicks)).
Proof.
  intros w1.
  assert (generative_loop 1 ([], []) (best_payoff_world [])
          = Ok (([0%Z; 0%Z], [stop_reward w1]), after_stop w1)) as Hrun.
  { apply (generative_loop_stop 0 [] [] (best_payoff_world []) w1 p_stop_8).
    apply (get_action_scripted 0 [] [] [] []). }
  split; [exact Hrun|].
  apply (generative_trial_shape 1 [] [] (best_payoff_world [])
           (after_stop w1) [0%Z; 0%Z] [stop_reward w1] Hrun).
Defined.

Lemma precision_epsilon_nonzero : precision_epsilon <> 0.
Proof. unfold precision_epsilon. apply Rinv_neq_0_compat. lra. Qed.

(** X21 at the floor [1e-6], for the action [0] and [p_stop = 0]. *)
Lemma observed_choice_prob_floor_witness :
  precision_epsilon <> 0 /\
  observed_choice_prob precision_epsilon 0 0 <> 0 /\
  (0%Z = 0%Z -> 0 <> 0 ->
   observed_choice_prob precision_epsilon 0 0 = 0) /\
  (0%Z <> 0%Z -> 1 - 0 <> 0 ->
   observed_choice_prob precision_epsilon 0 0 = 1 - 0) /\
  (0%Z = 0%Z -> 0 = 0 ->
   observed_choice_prob precision_epsilon 0 0 = precision_epsilon) /\
  (0%Z <> 0%Z -> 1 - 0 = 0 ->
   observed_choice_prob precision_epsilon 0 0 = precision_epsilon).
Proof.
  split; [exact precision_epsilon_nonzero|].
  apply (observed_choice_prob_floor precision_epsilon 0%Z 0
           precision_epsilon_nonzero).
Defined.


(** One replayed terminal step of a learner with [no_term] set. *)
Lemma no_term_step
    (w := no_term_world "best_payoff" theta_zero (two_actions_env 8) [])
    (w1 := with_rng [] (with_decision_agent (update_history 8) w)) :
  likelihood_step precision_epsilon [0%Z] [3] [] 0 ([], []) w
  = Ok (([0%Z], [3]),
        with_decision_agent
          (append_action_log_prob
             (ln (observed_choice_prob precision_epsilon 0 p_stop_8))) w1).
Proof.
  erewrite likelihood_step_run; cycle 1.
  - reflexivity.
  - reflexivity.
  - subst w.
    erewrite get_action_best_payoff;
      [reflexivity|reflexivity|cbn; lia|reflexivity].
  - reflexivity.
Qed.

(** X22 on one replayed terminal action. *)
Lemma no_term_terminal_step_skips_actor_witness :
  let w := no_term_world "best_payoff" theta_zero (two_actions_env 8) [] in
  let w' :=
    with_decision_agent
      (append_action_log_prob
         (ln (observed_choice_prob precision_epsilon 0 p_stop_8)))
      (with_rng [] (with_decision_agent (update_history 8) w)) in
  no_term w = true /\
  [0%Z] !! 0%nat = Some 0%Z /\
  likelihood_step precision_epsilon [0%Z] [3] [] 0 ([], []) w
  = Ok (([0%Z], [3]), w') /\
  actor_agent w' = actor_agent w /\ env w' = env w.
Proof.
  intros w w'. split; [reflexivity|]. split; [reflexivity|].
  split; [exact no_term_step|].
  apply (no_term_terminal_step_skips_actor precision_epsilon [0%Z] [3] [] 0
           [] [] w w' ([0%Z], [3]) eq_refl eq_refl no_term_step).
Defined.



Lemma hyperopt_space_sample : hyperopt_space sample_rows = Done sample_space.
Proof. reflexivity. Qed.

Lemma pyabc_prior_sample : pyabc_prior sample_rows = Done sample_prior.
Proof. reflexivity. Qed.

(** X23 on a parameter list that names ["lik_sigma"] itself. *)
Lemma hyperopt_space_lik_sigma_witness :
  hyperopt_space sample_rows = Done sample_space /\
  sample_space !! "lik_sigma"%string
  = Some (HpUniform "lik_sigma" (ln (/ 1000)) (ln 1000)) /\
  (forall k, is_Some (sample_space !! k) ->
             k = "lik_sigma"%string \/ k ∈ row_name <$> sample_rows).
Proof.
  split; [exact hyperopt_space_sample|].
  apply (hyperopt_space_lik_sigma sample_rows sample_space
           hyperopt_space_sample).
Defined.

(** X24 on the two spaces of [sample_rows]. *)
Lemma search_spaces_share_names_witness :
  hyperopt_space sample_rows = Done sample_space /\
  pyabc_prior sample_rows = Done sample_prior /\
  dom sample_space = {["lik_sigma"%string]} ∪ dom sample_prior.
Proof.
  split; [exact hyperopt_space_sample|]. split; [exact pyabc_prior_sample|].
  apply (search_spaces_share_names sample_rows sample_space sample_prior
           hyperopt_space_sample pyabc_prior_sample).
Defined.


Lemma make_prior_sample :
  make_prior unit_interval 2 false
  = Done [("prior_0"%string, "uniform"%string, RangeList [0; 1]);
          ("prior_1"%string, "uniform"%string, RangeList [0; 1])].
Proof. reflexivity. Qed.

Lemma sample_point_keys name :
  name ∈ row_name
         <$> [("prior_0"%string, "uniform"%string, RangeList [0; 1]);
              ("prior_1"%string, "uniform"%string, RangeList [0; 1])] ->
  is_Some (sample_point !! name).
Proof.
  cbn. intros Hin. unfold sample_point.
  apply elem_of_cons in Hin as [->|Hin].
  - exists 1. apply lookup_insert_eq.
  - apply elem_of_cons in Hin as [->|Hin]; [|now apply elem_of_nil in Hin].
    exists 2. rewrite lookup_insert_ne by discriminate.
    apply lookup_singleton_eq.
Qed.

(** X26 with two priors. *)
Lemma make_prior_names_feed_combine_priors_witness :
  let rows := [("prior_0"%string, "uniform"%string, RangeList [0; 1]);
               ("prior_1"%string, "uniform"%string, RangeList [0; 1])] in
  make_prior unit_interval 2 false = Done rows /\
  (forall name, name ∈ row_name <$> rows -> is_Some (sample_point !! name)) /\
  NoDup (row_name <$> rows) /\
  length rows = 2%nat /\
  exists ws,
    combine_priors sample_point 2 "prior" = Done ws /\
    length ws = 2%nat /\
    forall i row, rows !! i = Some row ->
                  ws !! i = sample_point !! row_name row.
Proof.
  intros rows. split; [exact make_prior_sample|].
  split; [exact sample_point_keys|].
  apply (make_prior_names_feed_combine_priors unit_interval 2 rows
           sample_point make_prior_sample sample_point_keys).
Defined.

(** X27 on a point that lacks ["prior_1"]. *)
Lemma combine_priors_reports_first_missing_key_witness :
  (1 < 2)%nat /\
  ({[ "prior_0"%string := 1 ]} : gmap string R) !! indexed_name "prior" 1
  = None /\
  (forall j, (j < 1)%nat ->
             is_Some (({[ "prior_0"%string := 1 ]} : gmap string R)
                        !! indexed_name "prior" j)) /\
  combine_priors {[ "prior_0"%string := 1 ]} 2 "prior"
  = Failed (ConfigKeyError (indexed_name "prior" 1)).
Proof.
  assert (({[ "prior_0"%string := 1 ]} : gmap string R)
            !! indexed_name "prior" 1 = None) as Hmissing.
  { apply lookup_singleton_ne. discriminate. }
  assert (forall j, (j < 1)%nat ->
            is_Some (({[ "prior_0"%string := 1 ]} : gmap string R)
                       !! indexed_name "prior" j)) as Hbefore.
  { intros j Hj. replace j with 0%nat by lia. exists 1.
    apply lookup_singleton_eq. }
  split; [lia|]. split; [exact Hmissing|]. split; [exact Hbefore|].
  apply (combine_priors_reports_first_missing_key {[ "prior_0"%string := 1 ]}
           2 "prior" 1 ltac:(lia) Hmissing Hbefore).
Defined.

Lemma get_params_list_sample :
  get_params_list sample_config
  = Done [("alpha"%string, "uniform"%string, RangeList [0; 1])].
Proof. reflexivity. Qed.

(** X28 on a configuration with one falsy entry. *)
Lemma get_params_list_skips_falsy_entries_witness :
  let rows := [("alpha"%string, "uniform"%string, RangeList [0; 1])] in
  get_params_list sample_config = Done rows /\
  row_name <$> rows
  = (filter (fun entry => is_Some entry.2) sample_config).*1 /\
  (forall param param_type param_range,
     (param, param_type, param_range) ∈ rows ->
     exists d, (param, Some d) ∈ sample_config /\
               dict_type d = Some param_type /\
               dict_range d = Some param_range).
Proof.
  intros rows. split; [exact get_params_list_sample|].
  apply (get_params_list_skips_falsy_entries sample_config rows
           get_params_list_sample).
Defined.

End Examples.
